(** * hu1.ipynb: critical [NO] and the lifetime of NO_x

    A shallow embedding of the notebook [src/hu1.ipynb].  The notebook is
    straight-line Python over [float] values, so the embedding works on
    IEEE 754 binary64 numbers (Rocq's primitive floats, which round every
    operation to nearest-even exactly as CPython's [float] does) and threads
    Python's exceptions through a small error monad.

    - [Py]: float division, [math.exp] and [** -3.0] as CPython evaluates
      them; the C library behind the last two is a parameter.
    - [Notebook]: the cells, one definition per assignment.
    - [Spec]: the formulas in the specification's words, for comparison.
    - [Libm], [Enclosure]: what is assumed of the C library at the four
      calls the notebook makes, and the means to check the reference values
      against the real exponential.
    - [Exact]: the converter read over the real numbers. *)

From Stdlib Require Import ZArith QArith Qabs Qround Floats List Bool Lia.
From Stdlib Require Import Reals Lra Qreals.
From Stdlib Require String DecimalString.
Import ListNotations.

Set Warnings "-inexact-float".

(** ** The parts of the Python runtime the notebook relies on *)

Module Py.

(** The exceptions float arithmetic and the [math] module can raise. *)
Inductive exn : Set :=
| ZeroDivisionError
| OverflowError
| ValueError.

Inductive result (A : Type) : Type :=
| Ok (a : A)
| Raise (e : exn).
Arguments Ok {A} a.
Arguments Raise {A} e.

Definition bind {A B} (c : result A) (k : A -> result B) : result B :=
  match c with
  | Ok a => k a
  | Raise e => Raise e
  end.

(** [returns P c]: the computation finishes without an exception, with a
    value satisfying [P]. *)
Definition returns {A} (P : A -> Prop) (c : result A) : Prop :=
  exists a, c = Ok a /\ P a.

(** [float.__truediv__]: a divisor equal to zero (either sign) raises,
    anything else is the IEEE quotient. *)
Definition truediv (a b : float) : result float :=
  if PrimFloat.eqb b 0 then Raise ZeroDivisionError else Ok (PrimFloat.div a b).

(** The rational number a finite float stands for. *)
Definition exact (x : float) : option Q :=
  match Prim2SF x with
  | S754_zero _ => Some 0%Q
  | S754_finite s m e =>
      let v := (inject_Z (Zpos m) * 2 ^ e)%Q in
      Some (if s then (- v)%Q else v)
  | S754_infinity _ | S754_nan => None
  end.

(** The C library functions the interpreter calls for [math.exp] and for
    float [**]; their results are the platform's, so they are parameters. *)
Record libm : Type := {
  c_exp : float -> float;
  c_pow : float -> float -> float
}.

(** [math.exp x] (CPython's [math_1] around C's [exp]): a NaN result for a
    number is a domain error, an infinite result for a finite argument is a
    range error. *)
Definition math_exp (m : libm) (x : float) : result float :=
  let r := c_exp m x in
  if is_nan r && negb (is_nan x) then Raise ValueError
  else if is_infinity r && is_finite x then Raise OverflowError
  else Ok r.

(** [x ** -3.0] (CPython's [float_pow], read at the exponent the notebook
    uses, an odd negative integer): NaN and infinite bases are answered
    without the C library, a zero base raises, a negative base is negated
    before and after the call to C's [pow], 1.0 is answered directly, and an
    infinite result of [pow] is a range error. *)
Definition pow_m3 (m : libm) (x : float) : result float :=
  if is_nan x then Ok x
  else if is_infinity x then Ok (if PrimFloat.ltb x 0 then neg_zero else zero)
  else if PrimFloat.eqb x 0 then Raise ZeroDivisionError
  else
    let neg := PrimFloat.ltb x 0 in
    let a := abs x in
    if PrimFloat.eqb a 1 then Ok (if neg then PrimFloat.opp 1 else 1%float)
    else
      let r := c_pow m a (PrimFloat.opp 3) in
      if is_infinity r then Raise OverflowError
      else Ok (if neg then PrimFloat.opp r else r).

End Py.

Import Py.

Declare Scope py_scope.
Delimit Scope py_scope with py.
Notation "x <- c ;; k" := (bind c (fun x => k))
  (at level 61, c at next level, right associativity) : py_scope.
Notation "a // b" := (truediv a b) (at level 40, left associativity) : py_scope.

(** ** Comparing a float with a decimal figure *)

(** [approx tol expected x]: [x] is finite and its exact value differs from
    [expected] by at most the fraction [tol] of [expected]. *)
Definition approx (tol expected : Q) (x : float) : Prop :=
  exists q, exact x = Some q /\ (Qabs (q - expected) <= tol * Qabs expected)%Q.

Definition approxb (tol expected : Q) (x : float) : bool :=
  match exact x with
  | Some q => Qle_bool (Qabs (q - expected)) (tol * Qabs expected)
  | None => false
  end.

Definition one_percent : Q := 1 # 100.

(** A finite float above zero. *)
Definition positive (x : float) : bool := PrimFloat.ltb 0 x && is_finite x.

(** ** The notebook *)

Module Notebook.

Open Scope float_scope.
Open Scope py_scope.

(** *** Cell 2: conditions, concentrations, reaction rates.

    [p_sfc], [p_10] and [t_sfc] are Python [int] literals; every use of
    them is as an operand of float arithmetic or of [/], where Python
    converts them to the float of the same value. *)
Definition p_sfc : float := 101325.
Definition p_10 : float := 28000.
Definition R : float := 8.31.
Definition NA : float := 6.022 * 1e23.
Definition t_sfc : float := 298.

Definition ho2 : float := 40 * 1e-12.
Definition ch3o2 : float := 25 * 1e-12.
Definition o3 : float := 40 * 1e-9.
Definition oh_c : float := 1e6.
Definition f : float := 0.15.
Definition j_o1d : float := 2.5 * 1e-5.

Definition k1 : float := 8.5 * 1e-12.
Definition k2 : float := k1.
Definition k1_l : float := 7.3 * 1e-14.
Definition k2_l : float := 2 * 1e-15.

(** *** Cell 3: volume mixing ratio to number density. *)
Definition vol_to_dens (vol temp pressure : float) : result float :=
  (vol * NA * pressure) // (R * temp * 1e6).

Definition ho2_c : result float := vol_to_dens ho2 t_sfc p_sfc.
Definition ch3o2_c : result float := vol_to_dens ch3o2 t_sfc p_sfc.
Definition o3_c : result float := vol_to_dens o3 t_sfc p_sfc.

(** *** Cell 4: the critical [NO].  The right-hand side of the assignment,
    as a function of the number densities it reads. *)
Definition no_crit_of (o3_c oh_c ho2_c ch3o2_c : float) : result float :=
  (o3_c * (k1_l * oh_c + k2_l * ho2_c + f * j_o1d)) //
    (k1 * ho2_c + k2 * ch3o2_c).

Definition no_crit : result float :=
  ho2_c <- ho2_c ;;
  ch3o2_c <- ch3o2_c ;;
  o3_c <- o3_c ;;
  no_crit_of o3_c oh_c ho2_c ch3o2_c.

(** *** Cell 6: conditions at the surface and at 10 km.  The cell assigns
    [oh_c = 1e6] again, the value it already has. *)
Definition j_no2 : float := 1e-2.
Definition t_10 : float := 220.
Definition o3_sfc : float := 40 * 1e-9.
Definition o3_10 : float := 100 * 1e-9.
Definition n2 : float := 78.08 * 1e-2.

Definition o3_sfc_c : result float := vol_to_dens o3_sfc t_sfc p_sfc.
Definition o3_10_c : result float := vol_to_dens o3_10 t_10 p_10.
Definition n2_sfc_c : result float := vol_to_dens n2 t_sfc p_sfc.
Definition n2_10_c : result float := vol_to_dens n2 t_10 p_10.

Section Rates.

Variable m : libm.

(** [1.4 * 1e-12 * math.exp(-1310 / t)], the right-hand side of [k_sfc] and
    of [k_10]. *)
Definition k_of (temp : float) : result float :=
  q <- (-1310) // temp ;;
  e <- math_exp m q ;;
  Ok (1.4 * 1e-12 * e).

Definition k_sfc : result float := k_of t_sfc.
Definition k_10 : result float := k_of t_10.

(** [3.3 * 1e-30 * (t / 300)**-3.0 * n2_c], the right-hand side of [kn_sfc]
    and of [kn_10]. *)
Definition kn_of (temp n2_c : float) : result float :=
  q <- temp // 300 ;;
  p <- pow_m3 m q ;;
  Ok (3.3 * 1e-30 * p * n2_c).

Definition kn_sfc : result float := n2_c <- n2_sfc_c ;; kn_of t_sfc n2_c.
Definition kn_10 : result float := n2_c <- n2_10_c ;; kn_of t_10 n2_c.

(** *** Cells 7 and 8: [(j_no2) / (k * o3_c)]. *)
Definition rat_of (k o3_c : float) : result float :=
  j_no2 // (k * o3_c).

Definition rat_sfc : result float :=
  k <- k_sfc ;; o3_c <- o3_sfc_c ;; rat_of k o3_c.
Definition rat_10 : result float :=
  k <- k_10 ;; o3_c <- o3_10_c ;; rat_of k o3_c.

(** *** Cell 9: [1 / (kn * oh_c)]. *)
Definition tau_no2_of (kn : float) : result float :=
  1 // (kn * oh_c).

Definition tau_no2_sfc : result float := kn <- kn_sfc ;; tau_no2_of kn.
Definition tau_no2_10 : result float := kn <- kn_10 ;; tau_no2_of kn.

(** *** Cell 10: [tau_no2 * (1 + rat)], and the hours the cell prints. *)
Definition tau_nox_of (tau_no2 rat : float) : float :=
  tau_no2 * (1 + rat).

Definition tau_nox_sfc : result float :=
  tau_no2 <- tau_no2_sfc ;; rat <- rat_sfc ;; Ok (tau_nox_of tau_no2 rat).
Definition tau_nox_10 : result float :=
  tau_no2 <- tau_no2_10 ;; rat <- rat_10 ;; Ok (tau_nox_of tau_no2 rat).

Definition hours (tau : result float) : result float :=
  t <- tau ;; t // 3600.

End Rates.

End Notebook.

(** ** The formulas as the specification words them *)

Module Spec.

Open Scope float_scope.
Open Scope py_scope.

Definition R : float := 8.31.

(** [density = mixing_ratio * Avogadro * pressure / (R * temperature * 1e6)] *)
Definition density (Avogadro mixing_ratio temperature pressure : float)
  : result float :=
  (mixing_ratio * Avogadro * pressure) // (R * temperature * 1e6).

(** [no_crit = o3_density * (k1_l*oh + k2_l*ho2_density + f*j_o1d)
               / (k1*ho2_density + k2*ch3o2_density)] *)
Definition critical_no
    (k1 k2 k1_l k2_l f j_o1d o3_density oh ho2_density ch3o2_density : float)
  : result float :=
  (o3_density * (k1_l * oh + k2_l * ho2_density + f * j_o1d)) //
    (k1 * ho2_density + k2 * ch3o2_density).

(** [k = A * exp(-Ea_over_R / temperature)] *)
Definition arrhenius (m : libm) (A Ea_over_R temperature : float)
  : result float :=
  q <- (- Ea_over_R) // temperature ;;
  e <- math_exp m q ;;
  Ok (A * e).

(** [ratio = j_no2 / (k * o3_density)] *)
Definition ratio (j_no2 k o3_density : float) : result float :=
  j_no2 // (k * o3_density).

Definition A2 : float := 3.3e-30.

(** [k_termolecular = A2 * (temperature/300)^(-3) * n2_density] *)
Definition k_termolecular (m : libm) (temperature n2_density : float)
  : result float :=
  q <- temperature // 300 ;;
  p <- pow_m3 m q ;;
  Ok (A2 * p * n2_density).

(** [tau_no2 = 1 / (k_termolecular * oh_density)] *)
Definition tau_no2 (k_termolecular oh_density : float) : result float :=
  1 // (k_termolecular * oh_density).

(** [tau_nox = tau_no2 * (1 + ratio)] *)
Definition tau_nox (tau_no2 ratio : float) : float :=
  tau_no2 * (1 + ratio).

(** The three steps composed for one atmospheric level: [n2_density] is the
    converted N2 number density and [ratio] the [NO]/[NO2] ratio of that
    level. *)
Definition nox_lifetime (m : libm) (temperature oh_density : float)
    (n2_density ratio : result float) : result float :=
  n2_density <- n2_density ;;
  k <- k_termolecular m temperature n2_density ;;
  t <- tau_no2 k oh_density ;;
  r <- ratio ;;
  Ok (tau_nox t r).

End Spec.

(** ** Rational enclosures of the exponential *)

Module Enclosure.

(** Bounds are kept on the grid of multiples of 2^-200. *)
Definition exp_scale : Q := inject_Z (2 ^ 200).

Definition round_down (q : Q) : Q :=
  inject_Z (Qfloor (q * exp_scale)) / exp_scale.
Definition round_up (q : Q) : Q :=
  inject_Z (Qceiling (q * exp_scale)) / exp_scale.

(** From bounds on a positive number to bounds on its square. *)
Definition square_bounds (b : Q * Q) : Q * Q :=
  (round_down (fst b * fst b), round_up (snd b * snd b)).

(** Bounds on exp(x): with y = x / 2^k, start from 1 + y <= exp(y) <=
    1 / (1 - y) and square [k] times. *)
Definition exp_bounds (k : nat) (x : Q) : Q * Q :=
  let y := x / inject_Z (2 ^ Z.of_nat k) in
  Nat.iter k square_bounds (1 + y, / (1 - y)).

Definition cube_inv (x : Q) : Q := / (x * x * x).

(** The value of a finite float, and 0 for the others. *)
Definition value (x : float) : Q :=
  match exact x with
  | Some q => q
  | None => 0
  end.

(** The midpoints between a float and its two neighbours. *)
Definition midpoints (c : float) : Q * Q :=
  ((value (next_down c) + value c) / 2, (value c + value (next_up c)) / 2).

Definition encloses (outer inner : Q * Q) : bool :=
  Qle_bool (fst outer) (fst inner) && Qle_bool (snd inner) (snd outer).

(** [nearest v c]: the real number [v] lies between the midpoints around
    [c], so [c] is [v] rounded to nearest. *)
Definition nearest (v : R) (c : float) : Prop :=
  (Q2R (fst (midpoints c)) <= v <= Q2R (snd (midpoints c)))%R.

End Enclosure.

(** ** Accuracy of the C library at the notebook's four calls *)

Module Libm.

Import Notebook.
Open Scope float_scope.

(** The binary64 numbers nearest to exp(-1310/298), exp(-1310/220),
    (298/300)^-3 and (220/300)^-3, where each argument is the float the
    notebook passes. *)
Definition exp_sfc_ref : float := 0x1.93ed5a137caabp-7.
Definition exp_10_ref : float := 0x1.5400f50c17ceep-9.
Definition pow_sfc_ref : float := 0x1.05306474d166ep+0.
Definition pow_10_ref : float := 0x1.4491680dd925fp+1.

Fixpoint walk (step : float -> float) (n : nat) (x : float) : list float :=
  match n with
  | O => []
  | S k => step x :: walk step k (step x)
  end.

(** [c] and the [n] floats on either side of it. *)
Definition ulp_ball (n : nat) (c : float) : list float :=
  c :: walk next_down n c ++ walk next_up n c.

Definition within_ulps (n : nat) (c y : float) : Prop := In y (ulp_ball n c).

Definition ulps : nat := 8.

(** The library's [exp] and [pow] return, at the arguments of the
    notebook's four calls, a float at most [ulps] units in the last place
    away from the correctly rounded result (that the four reference values
    are the correctly rounded results is lemma [references_rounded]). *)
Definition accurate (m : libm) : Prop :=
  within_ulps ulps exp_sfc_ref (c_exp m (-1310 / t_sfc)) /\
  within_ulps ulps exp_10_ref (c_exp m (-1310 / t_10)) /\
  within_ulps ulps pow_sfc_ref (c_pow m (t_sfc / 300) (-3)) /\
  within_ulps ulps pow_10_ref (c_pow m (t_10 / 300) (-3)).

(** A library that answers every call with the same two numbers. *)
Definition consts (e p : float) : libm :=
  {| c_exp := fun _ => e; c_pow := fun _ _ => p |}.

(** What [m] returns to the surface formulas, and to the 10 km ones. *)
Definition at_sfc (m : libm) : libm :=
  consts (c_exp m (-1310 / t_sfc)) (c_pow m (t_sfc / 300) (-3)).
Definition at_10 (m : libm) : libm :=
  consts (c_exp m (-1310 / t_10)) (c_pow m (t_10 / 300) (-3)).

(** A library that is correctly rounded at the four calls. *)
Definition rounded : libm :=
  {| c_exp := fun x => if PrimFloat.eqb x (-1310 / t_sfc) then exp_sfc_ref
                       else exp_10_ref;
     c_pow := fun x _ => if PrimFloat.eqb x (t_sfc / 300) then pow_sfc_ref
                         else pow_10_ref |}.

(** Boolean checks over every pair of candidate results. *)
Definition all_pairs (es ps : list float) (chk : libm -> bool) : bool :=
  forallb (fun e => forallb (fun p => chk (consts e p)) ps) es.

Definition holds (chk : float -> bool) (c : result float) : bool :=
  match c with
  | Ok x => chk x
  | Raise _ => false
  end.

End Libm.

(** ** The converter read over the real numbers *)

Module Exact.

Open Scope R_scope.

(** The formula [mixing_ratio * Avogadro * pressure / (R * temperature *
    1e6)] over the real numbers, with every literal standing for the
    decimal number it writes and every operation exact.  It is the
    reference that the binary64 results of [Notebook.vol_to_dens] are
    measured against, not a model of the code: it neither rounds nor
    raises. *)
Definition R : Rdefinitions.R := 8.31.
Definition NA : Rdefinitions.R := 6.022 * 1e23.

Definition vol_to_dens (vol temp pressure : Rdefinitions.R) : Rdefinitions.R :=
  (vol * NA * pressure) / (R * temp * 1e6).

(** [agrees x c]: the binary64 computation [c] returns a float whose value
    is within the fraction 1e-15 of the real number [x]. *)
Definition agrees (x : Rdefinitions.R) (c : result float) : Prop :=
  exists d, c = Ok d /\ Rabs (Q2R (Enclosure.value d) - x) <= 1e-15 * Rabs x.

(** The sign bit as a factor. *)
Definition sign_of (s : bool) : Rdefinitions.R := if s then -1 else 1.

(** The real number a float stands for; 0 for the infinities and NaN. *)
Definition of_float (x : float) : Rdefinitions.R := Q2R (Enclosure.value x).

(** Floats of magnitude between 2^-300 and 2^300: with such arguments no
    operation of the converter overflows or underflows. *)
Definition in_range (x : float) : bool :=
  (Qle_bool (2 ^ (-300)) (Qabs (Enclosure.value x)) &&
   Qle_bool (Qabs (Enclosure.value x)) (2 ^ 300))%Q.

(** [close eps x r]: [r] is [x] up to the relative error [eps]. *)
Definition close (eps x r : Rdefinitions.R) : Prop :=
  Rabs (r - x) <= eps * Rabs x.

(** 2^-52, a bound on the relative error of one rounding. *)
Definition rounding : Rdefinitions.R := / 4503599627370496.

(** 2^-49, eight times that: the five roundings of the converter and the
    two of its constants fit in it. *)
Definition tolerance : Rdefinitions.R := / 562949953421312.

(** [accurate v T P c]: the binary64 computation [c] returns a float that
    is the real reading at the arguments' values, up to [tolerance]. *)
Definition accurate (v T P : float) (c : result float) : Prop :=
  exists d,
    c = Ok d /\
    close tolerance (vol_to_dens (of_float v) (of_float T) (of_float P))
      (of_float d).

End Exact.

(** Closes [Exact.agrees x c] for closed [x] and [c]: the float is
    evaluated, and the two inequalities are between rational constants. *)
Ltac agrees_by_evaluation :=
  eexists; split; [vm_compute; reflexivity|];
  match goal with
  | |- context [Enclosure.value ?d] =>
      let v := eval vm_compute in (Enclosure.value d) in
      change (Enclosure.value d) with v
  end;
  unfold Exact.vol_to_dens, Exact.NA, Exact.R, Q2R; cbn [Qnum Qden];
  rewrite (Rabs_pos_eq (_ / _)) by lra;
  apply Rabs_le; split; lra.

(** ** Classes of binary64 numbers *)

Module Binary64.

(** Numbers other than the zeros and NaN. *)
Definition nonzero_number (x : spec_float) : Prop :=
  match x with
  | S754_finite _ _ _ | S754_infinity _ => True
  | S754_zero _ | S754_nan => False
  end.

(** Finite numbers of magnitude at least one. *)
Definition at_least_one (x : spec_float) : Prop :=
  match x with
  | S754_finite _ m e => (1 <= Zpos (digits2_pos m) + e)%Z
  | S754_zero _ | S754_infinity _ | S754_nan => False
  end.

(** Numbers that are not below zero: zeros of either sign, positive finite
    numbers and plus infinity; and NaN, which compares below nothing. *)
Definition not_negative (x : spec_float) : Prop :=
  match x with
  | S754_zero _ | S754_nan => True
  | S754_finite s _ _ | S754_infinity s => s = false
  end.

(** Mantissa [m] at exponent [e] as an integer, in units of 2^-2200
    (below every exponent the proofs meet). *)
Definition offset : Z := 2200.
Definition val (m e : Z) : Z := m * 2 ^ (e + offset).

(** The exponent of a finite binary64 number is the one its number of
    digits fixes. *)
Definition canonical (m : BinNums.positive) (e : Z) : Prop :=
  fexp prec emax (Zpos (digits2_pos m) + e) = e.

(** Positive finite numbers and plus infinity. *)
Definition above_zero (x : spec_float) : Prop :=
  match x with
  | S754_finite s _ _ | S754_infinity s => s = false
  | S754_zero _ | S754_nan => False
  end.

(** [normal E x]: [x] is finite with a full mantissa of 53 digits and
    2^(E-1) <= |x| < 2^E. *)
Definition normal (E : Z) (x : spec_float) : Prop :=
  match x with
  | S754_finite _ m e => Zpos (digits2_pos m) = 53%Z /\ e = (E - 53)%Z
  | S754_zero _ | S754_infinity _ | S754_nan => False
  end.

End Binary64.

(** ** What the notebook prints *)

Module Format.

Import String DecimalString.
Open Scope string_scope.

(** Nearest integer to a non-negative rational, ties to even. *)
Definition round_half_even (q : Q) : Z :=
  let n := Qfloor q in
  match Qcompare (q - inject_Z n) (1 # 2) with
  | Lt => n
  | Gt => (n + 1)%Z
  | Eq => if Z.even n then n else (n + 1)%Z
  end.

Definition digits (n : Z) : string :=
  NilZero.string_of_uint (N.to_uint (Z.to_N n)).

(** At least two digits, as C's [%02d]. *)
Definition digits2 (n : Z) : string :=
  if (n <? 10)%Z then "0" ++ digits n else digits n.

(** The largest [k] with 10^k <= q: upwards from [k] when 10^k <= q,
    downwards from [k] otherwise. *)
Fixpoint climb (fuel : nat) (k : Z) (q : Q) : Z :=
  match fuel with
  | O => k
  | S fuel' =>
      if Qle_bool (10 ^ (k + 1)) q then climb fuel' (k + 1)%Z q else k
  end.

Fixpoint descend (fuel : nat) (k : Z) (q : Q) : Z :=
  match fuel with
  | O => k
  | S fuel' => if Qle_bool (10 ^ k) q then k else descend fuel' (k - 1)%Z q
  end.

(** Doubles lie between 10^-324 and 10^309. *)
Definition decimal_exponent (q : Q) : Z :=
  if Qle_bool 1 q then climb 400 0 q else descend 400 (-1) q.

Definition sign_text (space negative : bool) : string :=
  if negative then "-" else if space then " " else "".

(** [format(x, '.2f')]: the decimal with two places nearest to the exact
    value of [x]. *)
Definition fixed2 (x : float) : string :=
  match Prim2SF x with
  | S754_nan => "nan"
  | S754_infinity s => sign_text false s ++ "inf"
  | S754_zero s => sign_text false s ++ "0.00"
  | S754_finite s m e =>
      let n := round_half_even (inject_Z (Zpos m) * 2 ^ e * 100) in
      sign_text false s ++ digits (n / 100) ++ "." ++ digits2 (n mod 100)
  end.

(** [format(x, '.2e')], and [format(x, ' .2e')] when [space] is set: three
    significant digits nearest to the exact value of [x], and the decimal
    exponent with its sign and at least two digits. *)
Definition sci2 (space : bool) (x : float) : string :=
  match Prim2SF x with
  | S754_nan => sign_text space false ++ "nan"
  | S754_infinity s => sign_text space s ++ "inf"
  | S754_zero s => sign_text space s ++ "0.00e+00"
  | S754_finite s m e =>
      let q := (inject_Z (Zpos m) * 2 ^ e)%Q in
      let k := decimal_exponent q in
      let n := round_half_even (q / 10 ^ (k - 2)) in
      let '(n, k) := if (n =? 1000)%Z then (100, k + 1)%Z else (n, k) in
      sign_text space s ++ digits (n / 100) ++ "." ++ digits2 (n mod 100)
        ++ "e" ++ (if (k <? 0)%Z then "-" else "+") ++ digits2 (Z.abs k)
  end.

End Format.

(** The lines each cell writes to standard output, in order ([print] ends
    each with a newline, left out here). *)
Module Stdout.

Import String Notebook Format.
Open Scope float_scope.
Open Scope string_scope.
Open Scope py_scope.

Definition cell4 : result (list string) :=
  no_crit <- no_crit ;;
  Ok ["The critical NO concentration is: " ++ sci2 false no_crit
        ++ " molec cm^-3"].

Definition cell5 : result (list string) :=
  ho2_c <- ho2_c ;;
  ch3o2_c <- ch3o2_c ;;
  Ok ["k1_l * [OH]: " ++ sci2 false (k1_l * oh_c);
      "k2_l * [HO_2]: " ++ sci2 false (k2_l * ho2_c);
      "f * JO1D$: " ++ sci2 true (f * j_o1d);
      "k1 * ho2_c: " ++ sci2 false (k1 * ho2_c);
      "k2 * ch202_c: " ++ sci2 false (k2 * ch3o2_c)].

Section Printed.

Variable m : libm.

Definition cell7 : result (list string) :=
  rat_sfc <- rat_sfc m ;;
  Ok ["[NO]/[NO2] ratio at surface: " ++ fixed2 rat_sfc].

Definition cell8 : result (list string) :=
  rat_10 <- rat_10 m ;;
  Ok ["[NO]/[NO2] ratio at 10 km: " ++ fixed2 rat_10].

Definition cell10 : result (list string) :=
  tau_nox_sfc <- tau_nox_sfc m ;;
  tau_nox_10 <- tau_nox_10 m ;;
  h_sfc <- tau_nox_sfc // 3600 ;;
  h_10 <- tau_nox_10 // 3600 ;;
  Ok ["Lifetime of NO_x at surface: " ++ fixed2 h_sfc ++ " hours.";
      "Lifetime of NO_x at 10 km: " ++ fixed2 h_10 ++ " hours."].

(** The whole run. *)
Definition notebook : result (list string) :=
  l4 <- cell4 ;;
  l5 <- cell5 ;;
  l7 <- cell7 ;;
  l8 <- cell8 ;;
  l10 <- cell10 ;;
  Ok (l4 ++ l5 ++ l7 ++ l8 ++ l10)%list.

End Printed.

(** The [stdout] outputs recorded in the notebook file. *)
Definition recorded : list string :=
  ["The critical NO concentration is: 4.19e+08 molec cm^-3";
   "k1_l * [OH]: 7.30e-08";
   "k2_l * [HO_2]: 1.97e-06";
   "f * JO1D$:  3.75e-06";
   "k1 * ho2_c: 8.38e-03";
   "k2 * ch202_c: 5.24e-03";
   "[NO]/[NO2] ratio at surface: 0.59";
   "[NO]/[NO2] ratio at 10 km: 2.99";
   "Lifetime of NO_x at surface: 6.81 hours.";
   "Lifetime of NO_x at 10 km: 18.37 hours."].

End Stdout.

(** ** Properties *)

Import Binary64 Enclosure.

Lemma approxb_sound tol expected x :
  approxb tol expected x = true -> approx tol expected x.
Proof.
  unfold approxb, approx.
  destruct (exact x) as [q|]; [|discriminate].
  intros H. exists q. split; [reflexivity|].
  now apply Qle_bool_iff.
Qed.

(** C1.  The notebook's critical [NO] is the specification's formula at
    the constants of cell 2 and the three converted densities, and its
    value is a finite float within one percent of 4.19e+08 molec cm^-3.
    The same holds when every input is written as the decimal literal of
    the claim (some of which are one unit in the last place away from the
    products the notebook writes). *)
Theorem no_crit_value :
  Notebook.no_crit =
    bind Notebook.ho2_c (fun ho2_c =>
    bind Notebook.ch3o2_c (fun ch3o2_c =>
    bind Notebook.o3_c (fun o3_c =>
      Spec.critical_no Notebook.k1 Notebook.k2 Notebook.k1_l Notebook.k2_l
        Notebook.f Notebook.j_o1d o3_c Notebook.oh_c ho2_c ch3o2_c))) /\
  returns (approx one_percent 4.19e8) Notebook.no_crit /\
  returns (approx one_percent 4.19e8)
    (bind (Spec.density 6.022e23 40e-12 298 101325) (fun ho2_c =>
     bind (Spec.density 6.022e23 25e-12 298 101325) (fun ch3o2_c =>
     bind (Spec.density 6.022e23 40e-9 298 101325) (fun o3_c =>
       Spec.critical_no 8.5e-12 8.5e-12 7.3e-14 2e-15 0.15 2.5e-5
         o3_c 1e6 ho2_c ch3o2_c)))).
Proof.
  split; [reflexivity|].
  split; (eexists; split;
          [vm_compute; reflexivity
          |apply approxb_sound; vm_compute; reflexivity]).
Qed.

(** ** Rounding to binary64

    Facts about the reference implementation of binary64 multiplication
    ([SpecFloat]), to which the axioms of [FloatAxioms] tie the primitive
    operations. *)

Section Rounding.

Open Scope Z_scope.

Lemma digits2_pos_bounds p :
  2 ^ (Zpos (digits2_pos p) - 1) <= Zpos p < 2 ^ Zpos (digits2_pos p).
Proof.
  induction p as [p IH|p IH|]; cbn [digits2_pos].
  - rewrite Pos2Z.inj_succ, Z.pow_succ_r by lia.
    replace (Z.succ (Zpos (digits2_pos p)) - 1)
      with (Z.succ (Zpos (digits2_pos p) - 1)) by lia.
    rewrite Z.pow_succ_r by lia. lia.
  - rewrite Pos2Z.inj_succ, Z.pow_succ_r by lia.
    replace (Z.succ (Zpos (digits2_pos p)) - 1)
      with (Z.succ (Zpos (digits2_pos p) - 1)) by lia.
    rewrite Z.pow_succ_r by lia. lia.
  - cbn. lia.
Qed.

Lemma shr_1_m mrs : 0 <= shr_m mrs -> shr_m (shr_1 mrs) = shr_m mrs / 2.
Proof.
  destruct mrs as [m r s]. cbn [shr_m shr_1]. intros Hm.
  destruct m as [|[p|p|]|p]; cbn [shr_m]; try lia; try reflexivity.
  - rewrite Pos2Z.inj_xI. apply Z.div_unique with 1; lia.
  - rewrite Pos2Z.inj_xO. apply Z.div_unique with 0; lia.
Qed.

(** [n] one-bit shifts divide a mantissa by 2^n. *)
Lemma shr_iter_m p : forall mrs,
  0 <= shr_m mrs ->
  shr_m (SpecFloat.iter_pos shr_1 p mrs) = shr_m mrs / 2 ^ Zpos p.
Proof.
  induction p as [p IH|p IH|]; intros mrs Hm; cbn [SpecFloat.iter_pos].
  - assert (H1 : 0 <= shr_m (shr_1 mrs))
      by (rewrite shr_1_m by lia; apply Z.div_pos; lia).
    assert (H2 : 0 <= shr_m (SpecFloat.iter_pos shr_1 p (shr_1 mrs)))
      by (rewrite IH by lia; apply Z.div_pos; lia).
    rewrite IH, IH, shr_1_m by lia.
    rewrite !Z.div_div by lia. f_equal.
    change 2 with (2 ^ 1) at 1. rewrite <- !Z.pow_add_r by lia.
    f_equal. lia.
  - assert (H2 : 0 <= shr_m (SpecFloat.iter_pos shr_1 p mrs))
      by (rewrite IH by lia; apply Z.div_pos; lia).
    rewrite IH, IH by lia.
    rewrite Z.div_div by lia. f_equal.
    rewrite <- Z.pow_add_r by lia. f_equal. lia.
  - rewrite shr_1_m by lia. reflexivity.
Qed.

(** A positive mantissa whose value is at least the least subnormal keeps a
    positive mantissa through the shift to its canonical exponent. *)
Lemma shr_fexp_pos m e l :
  0 < m -> -1073 <= Zdigits2 m + e ->
  0 < shr_m (fst (shr_fexp prec emax m e l)) /\
  -1074 <= snd (shr_fexp prec emax m e l).
Proof.
  intros Hm Hd. unfold shr_fexp, shr.
  assert (Hrec : shr_m (shr_record_of_loc m l) = m)
    by (destruct l as [|[]]; reflexivity).
  destruct m as [|p|p]; try lia. cbn [Zdigits2] in *.
  pose proof (digits2_pos_bounds p) as [Hlo _].
  set (d := Zpos (digits2_pos p)) in *.
  unfold fexp, emin, prec, emax.
  destruct (Z.max (d + e - 53) (3 - 1024 - 53) - e) as [|n|n] eqn:Hn;
    cbn [fst snd].
  - rewrite Hrec. lia.
  - rewrite shr_iter_m by lia. rewrite Hrec. split; [|lia].
    apply Z.div_str_pos. split; [lia|].
    apply Z.le_trans with (2 := Hlo). apply Z.pow_le_mono_r; lia.
  - rewrite Hrec. lia.
Qed.

Lemma round_nearest_even_ge m l : m <= round_nearest_even m l.
Proof. destruct l as [|[]]; cbn; try lia. destruct (Z.even m); lia. Qed.

Lemma Zdigits2_pos m : 0 < m -> 1 <= Zdigits2 m.
Proof. destruct m; cbn; lia. Qed.

(** Rounding such a mantissa gives a finite non-zero number or an infinity. *)
Lemma binary_round_aux_pos s m e l :
  0 < m -> -1073 <= Zdigits2 m + e ->
  binary_round_aux prec emax s m e l = S754_infinity s \/
  exists m' e', binary_round_aux prec emax s m e l = S754_finite s m' e'.
Proof.
  intros Hm Hd. unfold binary_round_aux.
  pose proof (shr_fexp_pos m e l Hm Hd) as [H1 H1e].
  destruct (shr_fexp prec emax m e l) as [mrs' e'] eqn:E1.
  cbn [fst snd] in *.
  pose proof (round_nearest_even_ge (shr_m mrs') (loc_of_shr_record mrs'))
    as Hr.
  set (m2 := round_nearest_even (shr_m mrs') (loc_of_shr_record mrs')) in *.
  assert (Hm2 : 0 < m2) by lia.
  pose proof (Zdigits2_pos m2 Hm2) as Hd2.
  pose proof (shr_fexp_pos m2 e' loc_Exact Hm2 ltac:(lia)) as [H2 _].
  destruct (shr_fexp prec emax m2 e' loc_Exact) as [mrs'' e''] eqn:E2.
  cbn [fst snd] in *.
  destruct (shr_m mrs'') as [|q|q]; try lia.
  destruct (e'' <=? emax - prec); [right; eauto | left; reflexivity].
Qed.

Lemma valid_finite_exponent s m e :
  valid_binary (S754_finite s m e) = true -> -1074 <= e.
Proof.
  cbn [SpecFloat.valid_binary]. unfold bounded, canonical_mantissa.
  intros H. apply andb_prop in H as [H _]. apply Z.eqb_eq in H.
  unfold fexp, emin, prec, emax in H. lia.
Qed.

Lemma digits2_pos_mul a b :
  Zpos (digits2_pos a) + Zpos (digits2_pos b) - 1
  <= Zpos (digits2_pos (a * b)).
Proof.
  pose proof (digits2_pos_bounds a) as [Ha _].
  pose proof (digits2_pos_bounds b) as [Hb _].
  pose proof (digits2_pos_bounds (a * b)) as [_ Hab].
  rewrite Pos2Z.inj_mul in Hab.
  assert (H : 2 ^ (Zpos (digits2_pos a) - 1 + (Zpos (digits2_pos b) - 1))
              < 2 ^ Zpos (digits2_pos (a * b))).
  { rewrite Z.pow_add_r by lia.
    apply Z.le_lt_trans with (2 := Hab). apply Z.mul_le_mono_nonneg; lia. }
  apply Z.pow_lt_mono_r_iff in H; lia.
Qed.

(** A product of two numbers other than zero and NaN, one of them of
    magnitude at least one, does not underflow to zero. *)
Lemma SFmul_nonzero x y :
  valid_binary x = true -> valid_binary y = true ->
  nonzero_number x -> nonzero_number y -> at_least_one x \/ at_least_one y ->
  nonzero_number (SF64mul x y).
Proof.
  intros Vx Vy Hx Hy Hone.
  destruct x as [sx|sx| |sx mx ex], y as [sy|sy| |sy my ey];
    cbn in Hx, Hy; try contradiction; try exact I.
  unfold SF64mul, SFmul.
  apply valid_finite_exponent in Vx, Vy.
  pose proof (digits2_pos_mul mx my) as Hd.
  assert (Hmx : 1 <= Zpos (digits2_pos mx)) by lia.
  assert (Hmy : 1 <= Zpos (digits2_pos my)) by lia.
  destruct (binary_round_aux_pos (xorb sx sy) (Zpos (mx * my)) (ex + ey)
              loc_Exact) as [E|(m' & e' & E)].
  - lia.
  - cbn [Zdigits2]. cbn [at_least_one] in Hone. lia.
  - rewrite E. exact I.
  - rewrite E. exact I.
Qed.

End Rounding.

Open Scope float_scope.

Lemma mul_nonzero x y :
  nonzero_number (Prim2SF x) -> nonzero_number (Prim2SF y) ->
  at_least_one (Prim2SF x) \/ at_least_one (Prim2SF y) ->
  nonzero_number (Prim2SF (x * y)).
Proof.
  intros Hx Hy H. rewrite mul_spec.
  apply SFmul_nonzero; auto using Prim2SF_valid.
Qed.

Lemma eqb_zero x :
  (x =? 0) = match Prim2SF x with S754_zero _ => true | _ => false end.
Proof.
  rewrite FloatAxioms.eqb_spec. change (Prim2SF 0) with (S754_zero false).
  destruct (Prim2SF x) as [s|s| |s m e]; try reflexivity;
    destruct s; reflexivity.
Qed.

Lemma R_at_least_one : at_least_one (Prim2SF Notebook.R).
Proof. vm_compute. discriminate. Qed.

Lemma million_at_least_one : at_least_one (Prim2SF 1e6).
Proof. vm_compute. discriminate. Qed.

(** The denominator of [vol_to_dens] is zero exactly when the temperature
    is: multiplying by 8.31 and by 1e6 cannot underflow. *)
Lemma denominator_zero temp :
  (Notebook.R * temp * 1e6 =? 0) = (temp =? 0).
Proof.
  rewrite !eqb_zero.
  destruct (Prim2SF temp) as [s|s| |s m e] eqn:E.
  - rewrite !mul_spec, E. destruct s; reflexivity.
  - rewrite !mul_spec, E. destruct s; reflexivity.
  - rewrite !mul_spec, E. reflexivity.
  - assert (H : nonzero_number (Prim2SF (Notebook.R * temp * 1e6))).
    { apply mul_nonzero.
      - apply mul_nonzero.
        + vm_compute. exact I.
        + rewrite E. exact I.
        + left. exact R_at_least_one.
      - vm_compute. exact I.
      - right. exact million_at_least_one. }
    destruct (Prim2SF (Notebook.R * temp * 1e6)); cbn in H;
      try contradiction; reflexivity.
Qed.

(** ** The converter *)

Import Notebook.

Lemma float_neq (a b : float) :
  PrimFloat.eqb a a = true -> PrimFloat.eqb a b = false -> a <> b.
Proof. intros Ha Hab E. rewrite <- E in Hab. congruence. Qed.

Lemma Ok_neq (a b : float) : a <> b -> Ok a <> Ok b.
Proof. intros H E. apply H. now injection E. Qed.

(** [vol_to_dens] raises exactly when the temperature compares equal to
    zero, whatever the other two arguments are. *)
Lemma vol_to_dens_cases vol temp pressure :
  vol_to_dens vol temp pressure =
  if temp =? 0 then Raise ZeroDivisionError
  else Ok ((vol * NA * pressure) / (R * temp * 1e6)).
Proof. unfold vol_to_dens, truediv. rewrite denominator_zero. reflexivity. Qed.

(** C2, as stated, fails: with Avogadro's number written as the literal
    6.022e23 the formula gives another float than the code at the
    notebook's HO2 conversion; and at temperature zero the code returns
    nothing. *)
Lemma avogadro_literal_differs :
  vol_to_dens ho2 t_sfc p_sfc <> Spec.density 6.022e23 ho2 t_sfc p_sfc /\
  vol_to_dens ho2 0 p_sfc = Raise ZeroDivisionError.
Proof.
  split; [|reflexivity].
  vm_compute. apply Ok_neq. apply float_neq; vm_compute; reflexivity.
Qed.

(** C2, amended.  For every mixing ratio, temperature and pressure the
    converter is the specification's formula evaluated in binary64 with
    R = 8.31 and with Avogadro's number the product 6.022 * 1e23, which is
    the float just below the literal 6.022e23; it raises ZeroDivisionError
    when the temperature is zero and returns the quotient otherwise, and
    depends on nothing but its three arguments. *)
Theorem vol_to_dens_formula :
  NA = next_down 6.022e23 /\ R = 8.31 /\
  forall v T P,
    vol_to_dens v T P = Spec.density (6.022 * 1e23) v T P /\
    vol_to_dens v T P =
      if T =? 0 then Raise ZeroDivisionError
      else Ok (v * NA * P / (R * T * 1e6)).
Proof.
  split; [vm_compute; reflexivity|].
  split; [reflexivity|].
  intros v T P. split.
  - reflexivity.
  - apply vol_to_dens_cases.
Qed.

(** ** Exceptions *)

(** C3, as stated, fails: a negative temperature is not reported as an
    error; the converter returns a negative density. *)
Lemma negative_temperature_accepted :
  returns (fun d => (d <? 0) = true) (vol_to_dens ho2 (-298) p_sfc).
Proof. eexists. split; vm_compute; reflexivity. Qed.

(** C3, amended.  A zero denominator raises Python's ZeroDivisionError in
    the converter (exactly at temperature zero) and in the critical-[NO],
    ratio and lifetime formulas, and so does a zero temperature in the two
    rate constants; no inf or nan is produced that way.  Nothing checks the
    sign of temperature or pressure: a negative temperature or pressure
    gives a negative density and a zero pressure gives density zero, without
    an exception.  Division by zero is not the only fault: an infinite
    result of the C library's exp (here a library that overflows, at
    temperature -1) is reported as OverflowError. *)
Theorem errors_raised :
  (forall v T P,
     vol_to_dens v T P =
       if T =? 0 then Raise ZeroDivisionError
       else Ok (v * NA * P / (R * T * 1e6))) /\
  (forall o3_c oh_c ho2_c ch3o2_c,
     no_crit_of o3_c oh_c ho2_c ch3o2_c =
       if k1 * ho2_c + k2 * ch3o2_c =? 0 then Raise ZeroDivisionError
       else Ok (o3_c * (k1_l * oh_c + k2_l * ho2_c + f * j_o1d)
                / (k1 * ho2_c + k2 * ch3o2_c))) /\
  (forall k o3_c,
     rat_of k o3_c =
       if k * o3_c =? 0 then Raise ZeroDivisionError
       else Ok (j_no2 / (k * o3_c))) /\
  (forall kn,
     tau_no2_of kn =
       if kn * oh_c =? 0 then Raise ZeroDivisionError
       else Ok (1 / (kn * oh_c))) /\
  (forall m n2_c,
     k_of m 0 = Raise ZeroDivisionError /\
     kn_of m 0 n2_c = Raise ZeroDivisionError) /\
  returns (fun d => (d <? 0) = true) (vol_to_dens ho2 (-298) p_sfc) /\
  returns (fun d => (d <? 0) = true) (vol_to_dens ho2 t_sfc (-101325)) /\
  vol_to_dens ho2 t_sfc 0 = Ok 0 /\
  k_of (Libm.consts infinity 0) (-1) = Raise OverflowError.
Proof.
  split; [exact vol_to_dens_cases|].
  repeat split; try reflexivity.
  - eexists. split; vm_compute; reflexivity.
  - eexists. split; vm_compute; reflexivity.
Qed.

(** ** The lifetime of NO_x as a composition *)

(** C6.  At each level the code's NO_x lifetime is the specification's
    composition: the termolecular rate constant from the level's
    temperature and converted N2 density with A2 = 3.3e-30, the NO2
    lifetime from it and the OH density, and the product with one plus the
    level's ratio. *)
Theorem nox_lifetime_composition (m : libm) :
  (n2_sfc_c = vol_to_dens n2 t_sfc p_sfc /\
   n2_10_c = vol_to_dens n2 t_10 p_10) /\
  (kn_sfc m = bind n2_sfc_c (Spec.k_termolecular m t_sfc) /\
   tau_no2_sfc m = bind (kn_sfc m) (fun k => Spec.tau_no2 k oh_c) /\
   tau_nox_sfc m =
     bind (tau_no2_sfc m) (fun t =>
     bind (rat_sfc m) (fun r => Ok (Spec.tau_nox t r))) /\
   tau_nox_sfc m = Spec.nox_lifetime m t_sfc oh_c n2_sfc_c (rat_sfc m)) /\
  (kn_10 m = bind n2_10_c (Spec.k_termolecular m t_10) /\
   tau_no2_10 m = bind (kn_10 m) (fun k => Spec.tau_no2 k oh_c) /\
   tau_nox_10 m =
     bind (tau_no2_10 m) (fun t =>
     bind (rat_10 m) (fun r => Ok (Spec.tau_nox t r))) /\
   tau_nox_10 m = Spec.nox_lifetime m t_10 oh_c n2_10_c (rat_10 m)).
Proof.
  split; [split; reflexivity|].
  split; (split; [reflexivity|]; split; [reflexivity|]; split; [reflexivity|]).
  - unfold tau_nox_sfc, tau_no2_sfc, kn_sfc, Spec.nox_lifetime.
    destruct n2_sfc_c as [n|e]; [|reflexivity]. cbn [bind].
    change (kn_of m t_sfc n) with (Spec.k_termolecular m t_sfc n).
    destruct (Spec.k_termolecular m t_sfc n) as [k|e]; reflexivity.
  - unfold tau_nox_10, tau_no2_10, kn_10, Spec.nox_lifetime.
    destruct n2_10_c as [n|e]; [|reflexivity]. cbn [bind].
    change (kn_of m t_10 n) with (Spec.k_termolecular m t_10 n).
    destruct (Spec.k_termolecular m t_10 n) as [k|e]; reflexivity.
Qed.

(** ** The reference values of exp and pow *)

Section References.

Open Scope Q_scope.

Lemma exp_scale_pos : 0 < exp_scale.
Proof. reflexivity. Qed.

Lemma round_down_le q : round_down q <= q.
Proof.
  unfold round_down. apply Qle_shift_div_r; [exact exp_scale_pos|].
  apply Qfloor_le.
Qed.

Lemma round_up_ge q : q <= round_up q.
Proof.
  unfold round_up. apply Qle_shift_div_l; [exact exp_scale_pos|].
  apply Qle_ceiling.
Qed.

Lemma round_down_nonneg q : 0 <= q -> 0 <= round_down q.
Proof.
  intros Hq. unfold round_down.
  apply Qle_shift_div_l; [exact exp_scale_pos|].
  rewrite Qmult_0_l.
  assert (H : 0 <= q * exp_scale).
  { apply Qmult_le_0_compat; [exact Hq|]. apply Qlt_le_weak, exp_scale_pos. }
  apply Qfloor_resp_le in H. change (Qfloor 0) with 0%Z in H.
  change 0 with (inject_Z 0). rewrite <- Zle_Qle. exact H.
Qed.

Open Scope R_scope.

Lemma Q2R_0 : Q2R 0 = 0.
Proof. unfold Q2R. cbn. lra. Qed.

Lemma Q2R_1 : Q2R 1 = 1.
Proof. unfold Q2R. cbn. lra. Qed.

Lemma exp_upper t : t < 1 -> exp t <= / (1 - t).
Proof.
  intros Ht.
  pose proof (exp_ineq1_le (- t)) as H. rewrite exp_Ropp in H.
  pose proof (exp_pos t) as Hp.
  replace (1 + - t) with (1 - t) in H by ring.
  rewrite <- (Rinv_inv (exp t)).
  apply Rinv_le_contravar; [lra|exact H].
Qed.

Lemma exp_double t : exp (2 * t) = exp t * exp t.
Proof. replace (2 * t) with (t + t) by ring. apply exp_plus. Qed.

Lemma square_bounds_sound b e :
  (0 <= fst b)%Q -> Q2R (fst b) <= e <= Q2R (snd b) ->
  (0 <= fst (square_bounds b))%Q /\
  Q2R (fst (square_bounds b)) <= e * e <= Q2R (snd (square_bounds b)).
Proof.
  destruct b as [lo hi]. cbn [fst snd square_bounds]. intros H0 [Hlo Hhi].
  assert (H0' : 0 <= Q2R lo) by (rewrite <- Q2R_0; apply Qle_Rle, H0).
  split; [|split].
  - apply round_down_nonneg. apply Qmult_le_0_compat; assumption.
  - apply Rle_trans with (Q2R (lo * lo)).
    + apply Qle_Rle, round_down_le.
    + rewrite Q2R_mult. nra.
  - apply Rle_trans with (Q2R (hi * hi)).
    + rewrite Q2R_mult. nra.
    + apply Qle_Rle, round_up_ge.
Qed.

Lemma iter_bounds_sound k : forall b t,
  (0 <= fst b)%Q -> Q2R (fst b) <= exp t <= Q2R (snd b) ->
  (0 <= fst (Nat.iter k square_bounds b))%Q /\
  Q2R (fst (Nat.iter k square_bounds b)) <= exp (2 ^ k * t)
    <= Q2R (snd (Nat.iter k square_bounds b)).
Proof.
  induction k as [|k IH]; intros b t H0 Hb.
  - cbn [Nat.iter pow]. rewrite Rmult_1_l. auto.
  - cbn [Nat.iter]. destruct (IH b t H0 Hb) as [H0' Hb'].
    replace (2 ^ S k * t) with (2 * (2 ^ k * t)) by (cbn [pow]; ring).
    rewrite exp_double. apply square_bounds_sound; assumption.
Qed.

(** [exp_bounds k x] encloses the exponential of [x] when |x| < 2^k. *)
Lemma exp_bounds_sound k x :
  (0 <= 1 + x / inject_Z (2 ^ Z.of_nat k))%Q ->
  (0 < 1 - x / inject_Z (2 ^ Z.of_nat k))%Q ->
  Q2R (fst (exp_bounds k x)) <= exp (Q2R x) <= Q2R (snd (exp_bounds k x)).
Proof.
  intros Hlo Hhi. unfold exp_bounds.
  set (y := (x / inject_Z (2 ^ Z.of_nat k))%Q) in *.
  assert (Hpos : 0 < 1 - Q2R y).
  { apply Qlt_Rlt in Hhi. rewrite Q2R_minus, Q2R_1, Q2R_0 in Hhi.
    exact Hhi. }
  assert (Hx : Q2R x = 2 ^ k * Q2R y).
  { unfold y. rewrite Q2R_div.
    - assert (Hp : Q2R (inject_Z (2 ^ Z.of_nat k)) = 2 ^ k).
      { unfold Q2R. cbn [Qnum Qden inject_Z]. rewrite Rinv_1, Rmult_1_r.
        rewrite <- pow_IZR. reflexivity. }
      rewrite Hp. field. apply pow_nonzero. lra.
    - intros E. unfold Qeq in E. cbn [Qnum Qden inject_Z] in E.
      pose proof (Z.pow_pos_nonneg 2 (Z.of_nat k) ltac:(lia) ltac:(lia)).
      lia. }
  rewrite Hx.
  apply iter_bounds_sound; cbn [fst snd].
  - exact Hlo.
  - split.
    + rewrite Q2R_plus, Q2R_1. apply exp_ineq1_le.
    + rewrite Q2R_inv, Q2R_minus, Q2R_1.
      * apply exp_upper. lra.
      * intros E. rewrite E in Hhi. discriminate.
Qed.

Lemma nearest_exp c x :
  (0 <= 1 + x / inject_Z (2 ^ Z.of_nat 70))%Q ->
  (0 < 1 - x / inject_Z (2 ^ Z.of_nat 70))%Q ->
  encloses (midpoints c) (exp_bounds 70 x) = true ->
  nearest (exp (Q2R x)) c.
Proof.
  intros Hlo Hhi H. apply andb_prop in H as [H1 H2].
  apply Qle_bool_iff, Qle_Rle in H1. apply Qle_bool_iff, Qle_Rle in H2.
  destruct (exp_bounds_sound 70 x Hlo Hhi) as [H3 H4].
  split; eapply Rle_trans; eassumption.
Qed.

Lemma nearest_cube_inv c x :
  ~ (x * x * x == 0)%Q ->
  encloses (midpoints c) (cube_inv x, cube_inv x) = true ->
  nearest (/ (Q2R x ^ 3)) c.
Proof.
  intros Hx H. apply andb_prop in H as [H1 H2]. cbn [fst snd] in H1, H2.
  apply Qle_bool_iff, Qle_Rle in H1. apply Qle_bool_iff, Qle_Rle in H2.
  assert (E : Q2R (cube_inv x) = / (Q2R x ^ 3)).
  { unfold cube_inv. rewrite Q2R_inv by exact Hx. rewrite !Q2R_mult.
    f_equal. ring. }
  rewrite E in H1, H2. split; assumption.
Qed.

Open Scope float_scope.

(** The four reference values of [Libm] are the correctly rounded results:
    exp of the float -1310/T and the inverse cube of the float T/300, for
    the two temperatures, rounded to the nearest float. *)
Lemma references_rounded :
  nearest (exp (Q2R (value (-1310 / t_sfc)))) Libm.exp_sfc_ref /\
  nearest (exp (Q2R (value (-1310 / t_10)))) Libm.exp_10_ref /\
  nearest (/ (Q2R (value (t_sfc / 300)) ^ 3)) Libm.pow_sfc_ref /\
  nearest (/ (Q2R (value (t_10 / 300)) ^ 3)) Libm.pow_10_ref.
Proof.
  split; [|split; [|split]].
  1-2: apply nearest_exp; [apply Qle_bool_iff| |]; vm_compute; reflexivity.
  1-2: apply nearest_cube_inv;
    [intros E; vm_compute in E; discriminate | vm_compute; reflexivity].
Qed.

End References.

(** ** Values that depend on the C library *)

Lemma holds_returns chk c :
  Libm.holds chk c = true -> returns (fun x => chk x = true) c.
Proof.
  destruct c as [x|e]; cbn; [|discriminate].
  intros H. exists x. split; [reflexivity|exact H].
Qed.

Lemma holds_approx tol expected c :
  Libm.holds (approxb tol expected) c = true ->
  returns (approx tol expected) c.
Proof.
  intros H. apply holds_returns in H. destruct H as (x & Hx & Hb).
  exists x. split; [exact Hx|now apply approxb_sound].
Qed.

Lemma all_pairs_In es ps chk e p :
  Libm.all_pairs es ps chk = true -> In e es -> In p ps ->
  chk (Libm.consts e p) = true.
Proof.
  unfold Libm.all_pairs. intros H He Hp.
  rewrite forallb_forall in H. specialize (H e He).
  rewrite forallb_forall in H. exact (H p Hp).
Qed.

(** Under [accurate], a check that passes on every pair of candidate
    results passes on what the library returned at the surface calls. *)
Lemma accurate_sfc m chk :
  Libm.all_pairs (Libm.ulp_ball Libm.ulps Libm.exp_sfc_ref)
                 (Libm.ulp_ball Libm.ulps Libm.pow_sfc_ref) chk = true ->
  Libm.accurate m -> chk (Libm.at_sfc m) = true.
Proof.
  intros H (He & _ & Hp & _). exact (all_pairs_In _ _ _ _ _ H He Hp).
Qed.

Lemma accurate_10 m chk :
  Libm.all_pairs (Libm.ulp_ball Libm.ulps Libm.exp_10_ref)
                 (Libm.ulp_ball Libm.ulps Libm.pow_10_ref) chk = true ->
  Libm.accurate m -> chk (Libm.at_10 m) = true.
Proof.
  intros H (_ & He & _ & Hp). exact (all_pairs_In _ _ _ _ _ H He Hp).
Qed.

Lemma rounded_accurate : Libm.accurate Libm.rounded.
Proof. repeat split; left; vm_compute; reflexivity. Qed.

(** C4.  The ratio is [j_no2 / (k * o3_c)] with the Arrhenius rate constant
    [k = 1.4e-12 * exp(-1310 / T)] at each level, and with an accurate C
    library it is within one percent of 0.59 at the surface and of 2.99 at
    10 km. *)
Theorem ratio_values (m : libm) :
  Libm.accurate m ->
  (k_sfc m = Spec.arrhenius m (1.4 * 1e-12) 1310 t_sfc /\
   rat_sfc m = bind (k_sfc m) (fun k =>
               bind o3_sfc_c (fun o3_c => Spec.ratio j_no2 k o3_c)) /\
   returns (approx one_percent 0.59) (rat_sfc m)) /\
  (k_10 m = Spec.arrhenius m (1.4 * 1e-12) 1310 t_10 /\
   rat_10 m = bind (k_10 m) (fun k =>
              bind o3_10_c (fun o3_c => Spec.ratio j_no2 k o3_c)) /\
   returns (approx one_percent 2.99) (rat_10 m)).
Proof.
  intros Hm. split; (split; [reflexivity|]; split; [reflexivity|]).
  - apply holds_approx.
    apply (accurate_sfc m
             (fun l => Libm.holds (approxb one_percent 0.59) (rat_sfc l)));
      [vm_compute; reflexivity | exact Hm].
  - apply holds_approx.
    apply (accurate_10 m
             (fun l => Libm.holds (approxb one_percent 2.99) (rat_10 l)));
      [vm_compute; reflexivity | exact Hm].
Qed.

Lemma ratio_values_witness :
  Libm.accurate Libm.rounded /\
  returns (approx one_percent 0.59) (rat_sfc Libm.rounded) /\
  returns (approx one_percent 2.99) (rat_10 Libm.rounded).
Proof.
  split; [exact rounded_accurate|].
  pose proof (ratio_values Libm.rounded rounded_accurate)
    as [(_ & _ & H1) (_ & _ & H2)].
  exact (conj H1 H2).
Defined.

(** C5.  With an accurate C library the lifetime of NO_x, divided by 3600
    as the notebook prints it, is within one percent of 6.81 hours at the
    surface and of 18.37 hours at 10 km. *)
Theorem nox_lifetime_hours (m : libm) :
  Libm.accurate m ->
  returns (approx one_percent 6.81) (hours (tau_nox_sfc m)) /\
  returns (approx one_percent 18.37) (hours (tau_nox_10 m)).
Proof.
  intros Hm. split.
  - apply holds_approx.
    apply (accurate_sfc m
             (fun l => Libm.holds (approxb one_percent 6.81)
                         (hours (tau_nox_sfc l))));
      [vm_compute; reflexivity | exact Hm].
  - apply holds_approx.
    apply (accurate_10 m
             (fun l => Libm.holds (approxb one_percent 18.37)
                         (hours (tau_nox_10 l))));
      [vm_compute; reflexivity | exact Hm].
Qed.

Lemma nox_lifetime_hours_witness :
  Libm.accurate Libm.rounded /\
  returns (approx one_percent 6.81) (hours (tau_nox_sfc Libm.rounded)) /\
  returns (approx one_percent 18.37) (hours (tau_nox_10 Libm.rounded)).
Proof.
  split; [exact rounded_accurate|].
  exact (nox_lifetime_hours Libm.rounded rounded_accurate).
Defined.

(** C8.  Every quantity the notebook computes from its literal inputs is a
    finite float above zero: the seven converted number densities, the four
    rate constants, the critical [NO], both ratios, both NO2 lifetimes and
    both NO_x lifetimes (the last eight with an accurate C library). *)
Theorem quantities_positive (m : libm) :
  Libm.accurate m ->
  let pos := returns (fun x => positive x = true) in
  (pos ho2_c /\ pos ch3o2_c /\ pos o3_c /\ pos no_crit /\
   pos o3_sfc_c /\ pos o3_10_c /\ pos n2_sfc_c /\ pos n2_10_c) /\
  (pos (k_sfc m) /\ pos (kn_sfc m) /\ pos (rat_sfc m) /\
   pos (tau_no2_sfc m) /\ pos (tau_nox_sfc m)) /\
  (pos (k_10 m) /\ pos (kn_10 m) /\ pos (rat_10 m) /\
   pos (tau_no2_10 m) /\ pos (tau_nox_10 m)).
Proof.
  intros Hm pos. split; [|split].
  - repeat split; (eexists; split; vm_compute; reflexivity).
  - pose proof (accurate_sfc m
      (fun l => Libm.holds positive (k_sfc l)
                && Libm.holds positive (kn_sfc l)
                && Libm.holds positive (rat_sfc l)
                && Libm.holds positive (tau_no2_sfc l)
                && Libm.holds positive (tau_nox_sfc l))
      ltac:(vm_compute; reflexivity) Hm) as H.
    cbv beta in H. rewrite !andb_true_iff in H.
    destruct H as ((((H1 & H2) & H3) & H4) & H5).
    repeat split; apply holds_returns; assumption.
  - pose proof (accurate_10 m
      (fun l => Libm.holds positive (k_10 l)
                && Libm.holds positive (kn_10 l)
                && Libm.holds positive (rat_10 l)
                && Libm.holds positive (tau_no2_10 l)
                && Libm.holds positive (tau_nox_10 l))
      ltac:(vm_compute; reflexivity) Hm) as H.
    cbv beta in H. rewrite !andb_true_iff in H.
    destruct H as ((((H1 & H2) & H3) & H4) & H5).
    repeat split; apply holds_returns; assumption.
Qed.

Lemma quantities_positive_witness :
  Libm.accurate Libm.rounded /\
  returns (fun x => positive x = true) (tau_nox_sfc Libm.rounded) /\
  returns (fun x => positive x = true) (tau_nox_10 Libm.rounded).
Proof.
  split; [exact rounded_accurate|].
  pose proof (quantities_positive Libm.rounded rounded_accurate) as H.
  cbv zeta in H.
  destruct H as (_ & (_ & _ & _ & _ & H1) & (_ & _ & _ & _ & H2)).
  exact (conj H1 H2).
Defined.

(** C10.  With an accurate C library, at each level the ratio is above
    zero, the NO_x lifetime is the NO2 lifetime times one plus the ratio,
    and it is strictly greater than the NO2 lifetime. *)
Theorem nox_outlives_no2 (m : libm) :
  Libm.accurate m ->
  (exists t r,
     tau_no2_sfc m = Ok t /\ rat_sfc m = Ok r /\ (0 <? r) = true /\
     tau_nox_sfc m = Ok (t * (1 + r)) /\ (t <? t * (1 + r)) = true) /\
  (exists t r,
     tau_no2_10 m = Ok t /\ rat_10 m = Ok r /\ (0 <? r) = true /\
     tau_nox_10 m = Ok (t * (1 + r)) /\ (t <? t * (1 + r)) = true).
Proof.
  intros Hm. split.
  - pose proof (accurate_sfc m
      (fun l => match tau_no2_sfc l, rat_sfc l with
                | Ok t, Ok r => (0 <? r) && (t <? t * (1 + r))
                | _, _ => false
                end) ltac:(vm_compute; reflexivity) Hm) as H.
    cbv beta in H.
    unfold tau_nox_sfc.
    change (tau_no2_sfc m) with (tau_no2_sfc (Libm.at_sfc m)).
    change (rat_sfc m) with (rat_sfc (Libm.at_sfc m)).
    destruct (tau_no2_sfc (Libm.at_sfc m)) as [t|]; [|discriminate].
    destruct (rat_sfc (Libm.at_sfc m)) as [r|]; [|discriminate].
    apply andb_prop in H as [Hr Ht].
    exists t, r. repeat split; assumption.
  - pose proof (accurate_10 m
      (fun l => match tau_no2_10 l, rat_10 l with
                | Ok t, Ok r => (0 <? r) && (t <? t * (1 + r))
                | _, _ => false
                end) ltac:(vm_compute; reflexivity) Hm) as H.
    cbv beta in H.
    unfold tau_nox_10.
    change (tau_no2_10 m) with (tau_no2_10 (Libm.at_10 m)).
    change (rat_10 m) with (rat_10 (Libm.at_10 m)).
    destruct (tau_no2_10 (Libm.at_10 m)) as [t|]; [|discriminate].
    destruct (rat_10 (Libm.at_10 m)) as [r|]; [|discriminate].
    apply andb_prop in H as [Hr Ht].
    exists t, r. repeat split; assumption.
Qed.

Lemma nox_outlives_no2_witness :
  Libm.accurate Libm.rounded /\
  exists t r,
    tau_no2_sfc Libm.rounded = Ok t /\ rat_sfc Libm.rounded = Ok r /\
    (0 <? r) = true /\
    tau_nox_sfc Libm.rounded = Ok (t * (1 + r)) /\ (t <? t * (1 + r)) = true.
Proof.
  split; [exact rounded_accurate|].
  exact (proj1 (nox_outlives_no2 Libm.rounded rounded_accurate)).
Defined.

(** ** Scaling the converter's arguments *)

Lemma denominator_number temp :
  nonzero_number (Prim2SF temp) ->
  nonzero_number (Prim2SF (R * temp * 1e6)).
Proof.
  intros H. apply mul_nonzero.
  - apply mul_nonzero.
    + vm_compute. exact I.
    + exact H.
    + left. exact R_at_least_one.
  - vm_compute. exact I.
  - right. exact million_at_least_one.
Qed.

Lemma is_nan_false x : is_nan x = false -> Prim2SF x <> S754_nan.
Proof.
  unfold is_nan. rewrite FloatAxioms.eqb_spec. intros H E. rewrite E in H.
  discriminate.
Qed.

Lemma is_finite_true x :
  is_finite x = true ->
  match Prim2SF x with
  | S754_zero _ | S754_finite _ _ _ => True
  | S754_infinity _ | S754_nan => False
  end.
Proof.
  unfold is_finite, is_nan, is_infinity.
  rewrite !FloatAxioms.eqb_spec, abs_spec.
  change (Prim2SF infinity) with (S754_infinity false).
  destruct (Prim2SF x) as [s|[]| |s m e]; try exact (fun _ => I);
    cbn; discriminate.
Qed.

(** A mixing ratio of zero converts to zero at every temperature other than
    zero and every finite pressure. *)
Lemma vol_to_dens_zero T P :
  (T =? 0) = false -> is_nan T = false -> is_finite P = true ->
  returns (fun z => (z =? 0) = true) (vol_to_dens 0 T P).
Proof.
  intros HT0 HTn HP.
  rewrite vol_to_dens_cases, HT0. eexists. split; [reflexivity|].
  assert (Hd : nonzero_number (Prim2SF (R * T * 1e6))).
  { apply denominator_number. apply is_nan_false in HTn.
    rewrite eqb_zero in HT0.
    destruct (Prim2SF T); cbn; try exact I; try discriminate; congruence. }
  apply is_finite_true in HP.
  rewrite eqb_zero, div_spec, mul_spec.
  change (Prim2SF (0 * NA)) with (S754_zero false).
  destruct (Prim2SF P) as [s|s| |s m e]; try contradiction;
    destruct (Prim2SF (R * T * 1e6)) as [s'|s'| |s' m' e']; cbn in Hd;
    try contradiction; reflexivity.
Qed.

(** At the notebook's seven conversions the code's result is the value of
    the real reading up to rounding. *)
Lemma conversions_agree :
  Exact.agrees (Exact.vol_to_dens (40 * 1e-12) 298 101325) ho2_c /\
  Exact.agrees (Exact.vol_to_dens (25 * 1e-12) 298 101325) ch3o2_c /\
  Exact.agrees (Exact.vol_to_dens (40 * 1e-9) 298 101325) o3_c /\
  Exact.agrees (Exact.vol_to_dens (40 * 1e-9) 298 101325) o3_sfc_c /\
  Exact.agrees (Exact.vol_to_dens (100 * 1e-9) 220 28000) o3_10_c /\
  Exact.agrees (Exact.vol_to_dens (78.08 * 1e-2) 298 101325) n2_sfc_c /\
  Exact.agrees (Exact.vol_to_dens (78.08 * 1e-2) 220 28000) n2_10_c.
Proof. repeat split; agrees_by_evaluation. Qed.

(** ** Rounding in the normal range *)

Section NormalRange.

Open Scope Z_scope.

Lemma round_nearest_even_le m l : round_nearest_even m l <= m + 1.
Proof. destruct l as [|[]]; cbn; try lia. destruct (Z.even m); lia. Qed.

(** The number of binary digits, from bounds by powers of two. *)
Lemma digits2_pos_unique p k :
  2 ^ (k - 1) <= Zpos p < 2 ^ k -> Zpos (digits2_pos p) = k.
Proof.
  intros [Hlo Hhi]. pose proof (digits2_pos_bounds p) as [Dlo Dhi].
  set (d := Zpos (digits2_pos p)) in *.
  assert (Hd : 0 < d) by (unfold d; lia).
  assert (Hk : 0 < k).
  { destruct (Z.lt_ge_cases 0 k) as [|Hk]; [assumption|].
    rewrite (Z.pow_neg_r 2 (k - 1)) in Hlo by lia.
    destruct (Z.eq_dec k 0) as [->|]; [cbn in Hhi; lia|].
    rewrite Z.pow_neg_r in Hhi by lia. lia. }
  assert (H1 : 2 ^ (k - 1) < 2 ^ d) by lia.
  assert (H2 : 2 ^ (d - 1) < 2 ^ k) by lia.
  apply Z.pow_lt_mono_r_iff in H1; [|lia|lia].
  apply Z.pow_lt_mono_r_iff in H2; [|lia|lia].
  lia.
Qed.

(** A mantissa of at least 53 digits whose value lies in the normal range
    rounds to a finite number with a 53-digit mantissa [m'], one of the two
    neighbours [m2 * 2^n] of the value on the grid of step [2^n], where
    [n] is the number of digits dropped. *)
Lemma binary_round_aux_normal s p e l :
  let d := Zpos (digits2_pos p) in
  let n := d - 53 in
  53 <= d -> -1021 <= d + e <= 1023 ->
  exists m' e' m2,
    binary_round_aux prec emax s (Zpos p) e l = S754_finite s m' e' /\
    Zpos (digits2_pos m') = 53 /\
    d + e - 53 <= e' <= d + e - 52 /\
    Zpos m' * 2 ^ (e' - e) = m2 * 2 ^ n /\
    2 ^ 52 * 2 ^ n <= Zpos p /\
    (m2 - 1) * 2 ^ n <= Zpos p /\
    Zpos p + 1 <= (m2 + 1) * 2 ^ n.
Proof.
  intros d n Hd He.
  pose proof (digits2_pos_bounds p) as [Dlo Dhi]. fold d in Dlo, Dhi.
  assert (Hn : 0 <= n) by (unfold n; lia).
  assert (Hpn : 0 < 2 ^ n) by (apply Z.pow_pos_nonneg; lia).
  (* the truncated mantissa *)
  set (m1 := Zpos p / 2 ^ n).
  assert (Hdiv : m1 * 2 ^ n <= Zpos p < (m1 + 1) * 2 ^ n).
  { unfold m1. pose proof (Z.div_mod (Zpos p) (2 ^ n) ltac:(lia)) as Hq.
    pose proof (Z.mod_pos_bound (Zpos p) (2 ^ n) Hpn). lia. }
  assert (Hsplit : 2 ^ (d - 1) = 2 ^ 52 * 2 ^ n).
  { rewrite <- Z.pow_add_r by lia. f_equal. unfold n. lia. }
  assert (Hsplit' : 2 ^ d = 2 ^ 53 * 2 ^ n).
  { rewrite <- Z.pow_add_r by lia. f_equal. unfold n. lia. }
  assert (Hm1 : 2 ^ 52 <= m1 < 2 ^ 53).
  { split.
    - unfold m1. apply Z.div_le_lower_bound; [lia|]. lia.
    - unfold m1. apply Z.div_lt_upper_bound; [lia|]. lia. }
  unfold binary_round_aux.
  assert (E1 : exists mrs',
             shr_fexp prec emax (Zpos p) e l = (mrs', e + n) /\
             shr_m mrs' = m1).
  { unfold shr_fexp, shr. cbn [Zdigits2]. fold d.
    assert (Hrec : shr_m (shr_record_of_loc (Zpos p) l) = Zpos p)
      by (destruct l as [|[]]; reflexivity).
    replace (fexp prec emax (d + e) - e) with n
      by (unfold fexp, emin, prec, emax, n; lia).
    destruct n as [|q|q] eqn:En; try lia.
    - eexists. split; [f_equal; lia|].
      rewrite Hrec. unfold m1. now rewrite Z.div_1_r.
    - eexists. split; [reflexivity|].
      rewrite shr_iter_m by (rewrite Hrec; lia). now rewrite Hrec. }
  destruct E1 as (mrs' & E1 & Em1). rewrite E1, Em1.
  pose proof (round_nearest_even_ge m1 (loc_of_shr_record mrs')) as Rlo.
  pose proof (round_nearest_even_le m1 (loc_of_shr_record mrs')) as Rhi.
  set (m2 := round_nearest_even m1 (loc_of_shr_record mrs')) in *.
  destruct (Z.eq_dec m2 (2 ^ 53)) as [Htop|Htop].
  - (* rounded up to the next power of two *)
    assert (E2 : shr_fexp prec emax m2 (e + n) loc_Exact =
                 (shr_1 (shr_record_of_loc m2 loc_Exact), e + n + 1)).
    { unfold shr_fexp, shr. rewrite Htop.
      change (Zdigits2 (2 ^ 53)) with 54.
      replace (fexp prec emax (54 + (e + n)) - (e + n)) with 1
        by (unfold fexp, emin, prec, emax, n; lia).
      reflexivity. }
    rewrite E2, shr_1_m by (cbn; lia).
    cbn [shr_record_of_loc shr_m]. rewrite Htop.
    change (2 ^ 53 / 2) with (Zpos (Pos.pow 2 52)).
    replace (e + n + 1 <=? emax - prec) with true
      by (symmetry; apply Z.leb_le; unfold emax, prec, n; lia).
    exists (Pos.pow 2 52), (e + n + 1), m2.
    split; [reflexivity|]. split; [reflexivity|].
    split; [unfold n; lia|]. split; [|split; [lia|split; nia]].
    replace (e + n + 1 - e) with (1 + n) by lia.
    rewrite Z.pow_add_r, Htop, Z.mul_assoc by lia. reflexivity.
  - (* the mantissa still has 53 digits *)
    assert (Hm2 : 2 ^ 52 <= m2 < 2 ^ 53) by lia.
    destruct m2 as [|q|q] eqn:Eq; try lia.
    assert (Dq : Zpos (digits2_pos q) = 53)
      by (apply digits2_pos_unique; exact Hm2).
    assert (E2 : shr_fexp prec emax (Zpos q) (e + n) loc_Exact =
                 (shr_record_of_loc (Zpos q) loc_Exact, e + n)).
    { unfold shr_fexp, shr. cbn [Zdigits2]. rewrite Dq.
      replace (fexp prec emax (53 + (e + n)) - (e + n)) with 0
        by (unfold fexp, emin, prec, emax, n; lia).
      reflexivity. }
    rewrite E2. cbn [shr_record_of_loc shr_m].
    replace (e + n <=? emax - prec) with true
      by (symmetry; apply Z.leb_le; unfold emax, prec, n; lia).
    exists q, (e + n), (Zpos q).
    split; [reflexivity|]. split; [exact Dq|].
    split; [unfold n; lia|]. split; [|split; [lia|split; nia]].
    f_equal. f_equal. lia.
Qed.

End NormalRange.

(** ** The error of one rounding *)

Section RoundingError.

Open Scope R_scope.

Lemma bpow_pos e : 0 < powerRZ 2 e.
Proof. apply powerRZ_lt. lra. Qed.

Lemma bpow_add a b : powerRZ 2 (a + b) = powerRZ 2 a * powerRZ 2 b.
Proof. apply powerRZ_add. lra. Qed.

Lemma bpow_IZR k : (0 <= k)%Z -> powerRZ 2 k = IZR (2 ^ k).
Proof.
  intros Hk. destruct k as [|k|k]; try lia; [reflexivity|].
  cbn [powerRZ]. rewrite pow_IZR. now rewrite positive_nat_Z.
Qed.

Lemma sign_of_xorb a b :
  Exact.sign_of (xorb a b) = Exact.sign_of a * Exact.sign_of b.
Proof. destruct a, b; cbn; lra. Qed.

Lemma sign_of_abs s x : Rabs (Exact.sign_of s * x) = Rabs x.
Proof.
  destruct s; cbn.
  - replace (-1 * x) with (- x) by lra. apply Rabs_Ropp.
  - now rewrite Rmult_1_l.
Qed.

Lemma of_float_finite x s m e :
  Prim2SF x = S754_finite s m e ->
  Exact.of_float x = Exact.sign_of s * (IZR (Zpos m) * powerRZ 2 e).
Proof.
  intros H. unfold Exact.of_float, value, exact. rewrite H.
  assert (Hv : Q2R (inject_Z (Zpos m) * 2 ^ e) = IZR (Zpos m) * powerRZ 2 e).
  { rewrite Q2R_mult, RMicromega.Q2RpowerRZ by (left; discriminate).
    f_equal.
    - unfold Q2R. cbn [Qnum Qden inject_Z]. lra.
    - f_equal. unfold Q2R. cbn. lra. }
  destruct s; cbn [Exact.sign_of]; rewrite ?Q2R_opp, Hv; lra.
Qed.

(** A mantissa of at least 53 digits in the normal range rounds to a float
    within the fraction 2^-52 of every real number that the mantissa
    truncates. *)
Lemma binary_round_aux_close s p e l x :
  (53 <= Zpos (digits2_pos p))%Z ->
  (-1021 <= Zpos (digits2_pos p) + e <= 1023)%Z ->
  IZR (Zpos p) * powerRZ 2 e <= x < (IZR (Zpos p) + 1) * powerRZ 2 e ->
  exists m' e',
    binary_round_aux prec emax s (Zpos p) e l = S754_finite s m' e' /\
    Zpos (digits2_pos m') = 53%Z /\
    (Zpos (digits2_pos p) + e - 53 <= e'
     <= Zpos (digits2_pos p) + e - 52)%Z /\
    Rabs (IZR (Zpos m') * powerRZ 2 e' - x) <= Exact.rounding * x.
Proof.
  intros Hd He [Hlo Hhi].
  destruct (binary_round_aux_normal s p e l Hd He)
    as (m' & e' & m2 & E & Dm & He' & HK & H52 & Hdown & Hup).
  exists m', e'. repeat split; try assumption; try lia.
  set (n := (Zpos (digits2_pos p) - 53)%Z) in *.
  assert (Hn : (0 <= n)%Z) by (unfold n; lia).
  pose proof (bpow_pos e) as HB.
  replace e' with ((e' - e) + e)%Z by lia.
  rewrite bpow_add, (bpow_IZR (e' - e)) by lia.
  rewrite <- Rmult_assoc, <- mult_IZR, HK.
  apply IZR_le in H52, Hdown, Hup.
  rewrite plus_IZR in Hup.
  rewrite !mult_IZR in *. rewrite plus_IZR in Hup. rewrite minus_IZR in Hdown.
  change (IZR (2 ^ 52)) with 4503599627370496 in H52.
  set (a := IZR m2) in *. set (c := IZR (2 ^ n)) in *.
  set (b := IZR (Zpos p)) in *. set (B := powerRZ 2 e) in *.
  unfold Exact.rounding.
  assert (Hc : c * B <= / 4503599627370496 * x).
  { apply Rle_trans with (/ 4503599627370496 * (b * B)).
    - assert (c <= / 4503599627370496 * b) by lra.
      rewrite <- Rmult_assoc. apply Rmult_le_compat_r; lra.
    - apply Rmult_le_compat_l; lra. }
  assert (H1 : (a - 1) * c * B <= b * B)
    by (apply Rmult_le_compat_r; lra).
  assert (H2 : (b + 1) * B <= (a + 1) * c * B)
    by (apply Rmult_le_compat_r; lra).
  apply Rabs_le. split; lra.
Qed.

End RoundingError.

(** ** Products and quotients of normal numbers *)

Section NormalOps.

Lemma normal_mantissa m :
  Zpos (digits2_pos m) = 53%Z -> (2 ^ 52 <= Zpos m < 2 ^ 53)%Z.
Proof.
  intros D. pose proof (digits2_pos_bounds m) as H. rewrite D in H. exact H.
Qed.

Lemma digits2_pos_between p a b :
  (0 <= a)%Z -> (0 <= b)%Z -> (2 ^ a <= Zpos p < 2 ^ b)%Z ->
  (a + 1 <= Zpos (digits2_pos p) <= b)%Z.
Proof.
  intros Ha Hb [Hlo Hhi]. pose proof (digits2_pos_bounds p) as [Dlo Dhi].
  assert (H1 : (2 ^ a < 2 ^ Zpos (digits2_pos p))%Z) by lia.
  assert (H2 : (2 ^ (Zpos (digits2_pos p) - 1) < 2 ^ b)%Z) by lia.
  apply Z.pow_lt_mono_r_iff in H1; [|lia|lia].
  apply Z.pow_lt_mono_r_iff in H2; [|lia|lia].
  lia.
Qed.

Lemma close_signed s s' r x :
  (0 <= x)%R -> (Rabs (r - x) <= Exact.rounding * x)%R ->
  Exact.close Exact.rounding (Exact.sign_of (xorb s s') * x)
    (Exact.sign_of (xorb s s') * r).
Proof.
  intros Hx H. unfold Exact.close.
  rewrite <- Rmult_minus_distr_l, !sign_of_abs, (Rabs_pos_eq x) by exact Hx.
  exact H.
Qed.

(** The product of two normal numbers, when it stays in the normal range,
    is normal and within the fraction 2^-52 of the exact product. *)
Lemma mul_normal x y Ex Ey :
  normal Ex (Prim2SF x) -> normal Ey (Prim2SF y) ->
  (-1020 <= Ex + Ey <= 1023)%Z ->
  exists Ez,
    normal Ez (Prim2SF (x * y)) /\
    (Ex + Ey - 1 <= Ez <= Ex + Ey + 1)%Z /\
    Exact.close Exact.rounding (Exact.of_float x * Exact.of_float y)
      (Exact.of_float (x * y)).
Proof.
  intros Hx Hy HE.
  destruct (Prim2SF x) as [| | |sx mx ex] eqn:Px; try contradiction.
  destruct (Prim2SF y) as [| | |sy my ey] eqn:Py; try contradiction.
  destruct Hx as [Dx ->], Hy as [Dy ->].
  pose proof (normal_mantissa mx Dx) as Bx.
  pose proof (normal_mantissa my Dy) as By.
  assert (Dp : (105 <= Zpos (digits2_pos (mx * my)) <= 106)%Z).
  { apply (digits2_pos_between (mx * my) 104 106); try lia.
    rewrite Pos2Z.inj_mul.
    change (2 ^ 104)%Z with (2 ^ 52 * 2 ^ 52)%Z.
    change (2 ^ 106)%Z with (2 ^ 53 * 2 ^ 53)%Z.
    split.
    - apply Z.mul_le_mono_nonneg; lia.
    - apply Z.mul_lt_mono_nonneg; lia. }
  set (e := (Ex - 53 + (Ey - 53))%Z).
  pose proof (bpow_pos e) as HB.
  destruct (binary_round_aux_close (xorb sx sy) (mx * my) e loc_Exact
              (IZR (Zpos (mx * my)) * powerRZ 2 e)%R)
    as (m' & e' & E & Dm & He' & Hclose);
    [lia|unfold e; lia|split; [apply Rle_refl|]|].
  { apply Rmult_lt_compat_r; [exact HB|lra]. }
  assert (Pz : Prim2SF (x * y) = S754_finite (xorb sx sy) m' e').
  { rewrite mul_spec, Px, Py. exact E. }
  exists (e' + 53)%Z. split; [|split].
  - rewrite Pz. split; [exact Dm|lia].
  - unfold e in He'. lia.
  - rewrite (of_float_finite _ _ _ _ Pz), (of_float_finite _ _ _ _ Px),
      (of_float_finite _ _ _ _ Py).
    replace (Exact.sign_of sx * (IZR (Zpos mx) * powerRZ 2 (Ex - 53)) *
             (Exact.sign_of sy * (IZR (Zpos my) * powerRZ 2 (Ey - 53))))%R
      with (Exact.sign_of (xorb sx sy) *
            (IZR (Zpos (mx * my)) * powerRZ 2 e))%R.
    + apply close_signed; [|exact Hclose].
      apply Rmult_le_pos; [apply IZR_le; lia|lra].
    + unfold e. rewrite sign_of_xorb, bpow_add, Pos2Z.inj_mul, mult_IZR. ring.
Qed.

Lemma div_between q a b :
  (0 < b -> q * b <= a -> a < (q + 1) * b -> q <= a / b < q + 1)%R.
Proof.
  intros Hb Hlo Hhi. unfold Rdiv. split.
  - apply Rmult_le_reg_r with b; [exact Hb|].
    rewrite Rmult_assoc, Rinv_l by lra. lra.
  - apply Rmult_lt_reg_r with b; [exact Hb|].
    rewrite Rmult_assoc, Rinv_l by lra. lra.
Qed.

(** What [SFdiv_core_binary] computes for two full mantissas. *)
Lemma SFdiv_core_normal mx ex my ey :
  Zpos (digits2_pos mx) = 53%Z -> Zpos (digits2_pos my) = 53%Z ->
  (-1021 <= ex - ey)%Z ->
  SFdiv_core_binary prec emax (Zpos mx) ex (Zpos my) ey =
  ((Zpos mx * 2 ^ 53 / Zpos my)%Z, (ex - ey - 53)%Z,
   new_location (Zpos my) (Zpos mx * 2 ^ 53 mod Zpos my)%Z).
Proof.
  intros Dx Dy He. unfold SFdiv_core_binary. cbn [Zdigits2].
  rewrite Dx, Dy.
  replace (Z.min (fexp prec emax (53 + ex - (53 + ey))) (ex - ey))
    with (ex - ey - 53)%Z by (unfold fexp, emin, prec, emax; lia).
  replace (ex - ey - (ex - ey - 53))%Z with 53%Z by lia.
  rewrite Z.shiftl_mul_pow2 by lia.
  unfold Z.div, Z.modulo.
  destruct (Z.div_eucl (Zpos mx * 2 ^ 53) (Zpos my)) as [q r]. reflexivity.
Qed.

(** The quotient of two normal numbers, when it stays in the normal range,
    is normal and within the fraction 2^-52 of the exact quotient. *)
Lemma div_normal x y Ex Ey :
  normal Ex (Prim2SF x) -> normal Ey (Prim2SF y) ->
  (-1021 <= Ex - Ey <= 1022)%Z ->
  exists Ez,
    normal Ez (Prim2SF (x / y)) /\
    (Ex - Ey <= Ez <= Ex - Ey + 2)%Z /\
    Exact.close Exact.rounding (Exact.of_float x / Exact.of_float y)
      (Exact.of_float (x / y)).
Proof.
  intros Hx Hy HE.
  destruct (Prim2SF x) as [| | |sx mx ex] eqn:Px; try contradiction.
  destruct (Prim2SF y) as [| | |sy my ey] eqn:Py; try contradiction.
  destruct Hx as [Dx ->], Hy as [Dy ->].
  pose proof (normal_mantissa mx Dx) as Bx.
  pose proof (normal_mantissa my Dy) as By.
  set (a := Zpos mx) in *. set (b := Zpos my) in *.
  set (q := (a * 2 ^ 53 / b)%Z).
  assert (Hq : (q * b <= a * 2 ^ 53 < (q + 1) * b)%Z).
  { unfold q. pose proof (Z.div_mod (a * 2 ^ 53) b ltac:(lia)) as Hdm.
    pose proof (Z.mod_pos_bound (a * 2 ^ 53) b ltac:(lia)). lia. }
  assert (Bq : (2 ^ 52 <= q < 2 ^ 54)%Z).
  { change (2 ^ 54)%Z with (2 ^ 53 * 2)%Z. unfold q. split.
    - apply Z.div_le_lower_bound; [lia|]. nia.
    - apply Z.div_lt_upper_bound; [lia|]. nia. }
  destruct q as [|qp|qp] eqn:Eq; try lia.
  assert (Dq : (53 <= Zpos (digits2_pos qp) <= 54)%Z)
    by (apply (digits2_pos_between qp 52 54); lia).
  set (e := (Ex - 53 - (Ey - 53) - 53)%Z).
  pose proof (bpow_pos e) as HB.
  pose proof (bpow_pos (Ey - 53)) as HBy.
  assert (Hb : (0 < IZR b)%R) by (apply IZR_lt; lia).
  assert (Hval :
    (IZR a * powerRZ 2 (Ex - 53) / (IZR b * powerRZ 2 (Ey - 53)) =
     IZR (a * 2 ^ 53) / IZR b * powerRZ 2 e)%R).
  { replace (Ex - 53)%Z with (e + 53 + (Ey - 53))%Z by (unfold e; lia).
    rewrite !bpow_add, (bpow_IZR 53), mult_IZR by lia. field. lra. }
  destruct (binary_round_aux_close (xorb sx sy) qp e
              (new_location b (a * 2 ^ 53 mod b)%Z)
              (IZR a * powerRZ 2 (Ex - 53) / (IZR b * powerRZ 2 (Ey - 53)))%R)
    as (m' & e' & E & Dm & He' & Hclose); [lia|unfold e; lia| |].
  { rewrite Hval.
    destruct (div_between (IZR (Zpos qp)) (IZR (a * 2 ^ 53)) (IZR b) Hb)
      as [Hlo Hhi].
    - rewrite <- mult_IZR. apply IZR_le. lia.
    - rewrite <- (plus_IZR _ 1), <- mult_IZR. apply IZR_lt. lia.
    - split.
      + apply Rmult_le_compat_r; lra.
      + apply Rmult_lt_compat_r; lra. }
  assert (Pz : Prim2SF (x / y) = S754_finite (xorb sx sy) m' e').
  { rewrite div_spec, Px, Py. unfold SF64div, SFdiv.
    fold a b. rewrite (SFdiv_core_normal mx _ my _ Dx Dy) by lia.
    fold a b. fold e. unfold q in Eq. rewrite Eq. exact E. }
  exists (e' + 53)%Z. split; [|split].
  - rewrite Pz. split; [exact Dm|lia].
  - unfold e in He'. lia.
  - rewrite (of_float_finite _ _ _ _ Pz), (of_float_finite _ _ _ _ Px),
      (of_float_finite _ _ _ _ Py). fold a b.
    replace (Exact.sign_of sx * (IZR a * powerRZ 2 (Ex - 53)) /
             (Exact.sign_of sy * (IZR b * powerRZ 2 (Ey - 53))))%R
      with (Exact.sign_of (xorb sx sy) *
            (IZR a * powerRZ 2 (Ex - 53) / (IZR b * powerRZ 2 (Ey - 53))))%R.
    + apply close_signed; [|exact Hclose].
      apply Rmult_le_pos.
      * apply Rmult_le_pos; [apply IZR_le; lia|].
        pose proof (bpow_pos (Ex - 53)). lra.
      * apply Rlt_le, Rinv_0_lt_compat. apply Rmult_lt_0_compat; lra.
    + rewrite sign_of_xorb. destruct sx, sy; cbn [Exact.sign_of]; field; lra.
Qed.

End NormalOps.

(** ** Relative errors add up *)

Section Closeness.

Open Scope R_scope.

Lemma close_refl x : Exact.close 0 x x.
Proof.
  unfold Exact.close. rewrite Rminus_diag, Rabs_R0. lra.
Qed.

Lemma close_weaken a b x r :
  a <= b -> Exact.close a x r -> Exact.close b x r.
Proof.
  unfold Exact.close. intros Hab H. pose proof (Rabs_pos x).
  apply Rle_trans with (1 := H). apply Rmult_le_compat_r; assumption.
Qed.

Lemma close_mul a b x y r s :
  Exact.close a x r -> Exact.close b y s ->
  Exact.close (a + b + a * b) (x * y) (r * s).
Proof.
  unfold Exact.close. intros Hr Hs.
  replace (r * s - x * y) with ((r - x) * (s - y) + x * (s - y) + (r - x) * y)
    by ring.
  pose proof (Rabs_pos x) as Px. pose proof (Rabs_pos y) as Py.
  pose proof (Rabs_pos (r - x)) as Pr. pose proof (Rabs_pos (s - y)) as Ps.
  eapply Rle_trans; [apply Rabs_triang|].
  eapply Rle_trans; [apply Rplus_le_compat_r, Rabs_triang|].
  rewrite !Rabs_mult.
  assert (H1 : Rabs (r - x) * Rabs (s - y) <= a * Rabs x * (b * Rabs y))
    by (apply Rmult_le_compat; assumption).
  assert (H2 : Rabs x * Rabs (s - y) <= Rabs x * (b * Rabs y))
    by (apply Rmult_le_compat_l; assumption).
  assert (H3 : Rabs (r - x) * Rabs y <= a * Rabs x * Rabs y)
    by (apply Rmult_le_compat_r; assumption).
  lra.
Qed.

Lemma close_trans a b x r r' :
  0 <= b -> Exact.close a x r -> Exact.close b r r' ->
  Exact.close (a + b + a * b) x r'.
Proof.
  unfold Exact.close. intros Hb Hr Hr'.
  replace (r' - x) with ((r' - r) + (r - x)) by ring.
  eapply Rle_trans; [apply Rabs_triang|].
  assert (H : Rabs r <= Rabs x + a * Rabs x).
  { replace r with (x + (r - x)) at 1 by ring.
    eapply Rle_trans; [apply Rabs_triang|]. lra. }
  assert (H' : b * Rabs r <= b * (Rabs x + a * Rabs x))
    by (apply Rmult_le_compat_l; assumption).
  lra.
Qed.

Lemma close_div a b x y r s :
  0 <= a -> 0 <= b < 1 -> y <> 0 ->
  Exact.close a x r -> Exact.close b y s ->
  Exact.close ((a + b) / (1 - b)) (x / y) (r / s).
Proof.
  unfold Exact.close. intros Ha Hb Hy Hr Hs.
  pose proof (Rabs_pos x) as Px. pose proof (Rabs_pos_lt y Hy) as Py.
  assert (Hsy : (1 - b) * Rabs y <= Rabs s).
  { assert (H : Rabs y <= Rabs s + Rabs (y - s)).
    { replace y with (s + (y - s)) at 1 by ring. apply Rabs_triang. }
    rewrite (Rabs_minus_sym y s) in H. lra. }
  assert (Ps : 0 < Rabs s).
  { apply Rlt_le_trans with (2 := Hsy). apply Rmult_lt_0_compat; lra. }
  assert (Hs0 : s <> 0) by (intros ->; rewrite Rabs_R0 in Ps; lra).
  replace (r / s - x / y) with (((r - x) * y - x * (s - y)) / (s * y))
    by (field; split; assumption).
  unfold Rdiv at 1. rewrite Rabs_mult, Rabs_inv, Rabs_mult.
  assert (Hnum : Rabs ((r - x) * y - x * (s - y)) <= (a + b) * (Rabs x * Rabs y)).
  { unfold Rminus at 1.
    eapply Rle_trans; [apply Rabs_triang|].
    rewrite Rabs_Ropp, !Rabs_mult.
    assert (Rabs (r - x) * Rabs y <= a * Rabs x * Rabs y)
      by (apply Rmult_le_compat_r; lra).
    assert (Rabs x * Rabs (s - y) <= Rabs x * (b * Rabs y))
      by (apply Rmult_le_compat_l; lra).
    lra. }
  unfold Rdiv at 2. rewrite Rabs_mult, Rabs_inv.
  apply Rmult_le_reg_r with (Rabs s * Rabs y);
    [apply Rmult_lt_0_compat; assumption|].
  rewrite Rmult_assoc, Rinv_l by (apply Rgt_not_eq, Rmult_lt_0_compat; assumption).
  rewrite Rmult_1_r.
  apply Rle_trans with (1 := Hnum).
  replace ((a + b) / (1 - b) * (Rabs x * / Rabs y) * (Rabs s * Rabs y))
    with ((a + b) * Rabs x * (Rabs s / (1 - b)))
    by (field; split; lra).
  rewrite (Rmult_assoc (a + b)).
  apply Rmult_le_compat_l; [lra|].
  apply Rmult_le_compat_l; [lra|].
  apply Rmult_le_reg_r with (1 - b); [lra|].
  unfold Rdiv. rewrite Rmult_assoc, Rinv_l by lra. lra.
Qed.

End Closeness.

(** ** The converter is accurate on arguments in range *)

Section Accuracy.

Lemma bpow_le a b : (a <= b)%Z -> (powerRZ 2 a <= powerRZ 2 b)%R.
Proof.
  intros H. replace b with (a + (b - a))%Z by lia.
  rewrite bpow_add, (bpow_IZR (b - a)) by lia.
  pose proof (bpow_pos a).
  assert (1 <= IZR (2 ^ (b - a)))%R.
  { apply IZR_le. pose proof (Z.pow_pos_nonneg 2 (b - a)). lia. }
  rewrite <- (Rmult_1_r (powerRZ 2 a)) at 1.
  apply Rmult_le_compat_l; lra.
Qed.

Lemma bpow_lt a b : (a < b)%Z -> (powerRZ 2 a < powerRZ 2 b)%R.
Proof.
  intros H. replace b with (a + (b - a))%Z by lia.
  rewrite bpow_add, (bpow_IZR (b - a)) by lia.
  pose proof (bpow_pos a).
  assert (2 <= IZR (2 ^ (b - a)))%R.
  { apply IZR_le. replace (b - a)%Z with (Z.succ (b - a - 1)) by lia.
    rewrite Z.pow_succ_r by lia.
    pose proof (Z.pow_pos_nonneg 2 (b - a - 1)). lia. }
  rewrite <- (Rmult_1_r (powerRZ 2 a)) at 1.
  apply Rmult_lt_compat_l; lra.
Qed.

Lemma bpow_lt_inv a b : (powerRZ 2 a < powerRZ 2 b)%R -> (a < b)%Z.
Proof.
  intros H. destruct (Z.lt_ge_cases a b) as [|Hge]; [assumption|].
  apply bpow_le in Hge. lra.
Qed.

Lemma Q2R_Qabs q : Q2R (Qabs q) = Rabs (Q2R q).
Proof.
  destruct q as [n d]. unfold Qabs, Q2R. cbn [Qnum Qden].
  rewrite Rabs_mult, abs_IZR. f_equal.
  symmetry. apply Rabs_pos_eq. apply Rlt_le, Rinv_0_lt_compat.
  apply IZR_lt. lia.
Qed.

(** A float in range is normal, with binary exponent from -299 to 301. *)
Lemma in_range_normal x :
  Exact.in_range x = true ->
  exists E, normal E (Prim2SF x) /\ (-299 <= E <= 301)%Z.
Proof.
  intros H. pose proof (Prim2SF_valid x) as V.
  pose proof (fun s m e => of_float_finite x s m e) as Hval.
  unfold Exact.in_range in H. unfold Exact.of_float in Hval.
  destruct (Prim2SF x) as [s|s| |s m e] eqn:Px.
  1-3: unfold value, exact in H; rewrite Px in H; vm_compute in H;
    discriminate H.
  specialize (Hval s m e eq_refl).
  apply andb_prop in H as [Hlo Hhi].
  apply Qle_bool_iff, Qle_Rle in Hlo, Hhi.
  rewrite Q2R_Qabs, Hval, sign_of_abs in Hlo, Hhi.
  rewrite RMicromega.Q2RpowerRZ in Hlo, Hhi by (left; discriminate).
  replace (Q2R 2) with 2%R in Hlo, Hhi by (unfold Q2R; cbn; lra).
  pose proof (digits2_pos_bounds m) as [Dlo Dhi].
  set (d := Zpos (digits2_pos m)) in *.
  pose proof (bpow_pos e) as HB.
  assert (Hm : (0 <= IZR (Zpos m) * powerRZ 2 e)%R)
    by (apply Rmult_le_pos; [apply IZR_le; lia|lra]).
  rewrite Rabs_pos_eq in Hlo, Hhi by exact Hm.
  apply IZR_le in Dlo. apply IZR_lt in Dhi.
  rewrite <- !bpow_IZR in Dlo, Dhi by (unfold d; lia).
  assert (H1 : (-300 < d + e)%Z).
  { apply bpow_lt_inv. rewrite bpow_add.
    apply Rle_lt_trans with (1 := Hlo). apply Rmult_lt_compat_r; lra. }
  assert (H2 : (d - 1 + e < 301)%Z).
  { apply bpow_lt_inv. rewrite bpow_add.
    apply Rle_lt_trans with (powerRZ 2 300).
    - apply Rle_trans with (2 := Hhi). apply Rmult_le_compat_r; lra.
    - apply bpow_lt. lia. }
  cbn [valid_binary] in V. unfold bounded, canonical_mantissa in V.
  apply andb_prop in V as [V _]. apply Z.eqb_eq in V.
  unfold fexp, emin, prec, emax in V. fold d in V.
  exists (d + e)%Z. split; [|lia]. split; lia.
Qed.

Lemma normal_nonzero E x :
  normal E (Prim2SF x) -> (x =? 0) = false /\ Exact.of_float x <> 0%R.
Proof.
  intros H. rewrite eqb_zero.
  destruct (Prim2SF x) as [| | |s m e] eqn:Px; try contradiction.
  split; [reflexivity|].
  rewrite (of_float_finite _ _ _ _ Px).
  pose proof (bpow_pos e). assert (0 < IZR (Zpos m))%R by (apply IZR_lt; lia).
  assert (0 < IZR (Zpos m) * powerRZ 2 e)%R by (apply Rmult_lt_0_compat; lra).
  destruct s; cbn [Exact.sign_of]; lra.
Qed.

(** The three constants of the converter: normal, and equal to the decimal
    numbers they are written as up to one rounding. *)
Lemma NA_normal : normal 79 (Prim2SF NA).
Proof. vm_compute. split; reflexivity. Qed.

Lemma R_normal : normal 4 (Prim2SF R).
Proof. vm_compute. split; reflexivity. Qed.

Lemma million_normal : normal 20 (Prim2SF 1e6).
Proof. vm_compute. split; reflexivity. Qed.

Lemma NA_close : Exact.close Exact.rounding Exact.NA (Exact.of_float NA).
Proof.
  unfold Exact.close, Exact.of_float.
  let v := eval vm_compute in (value NA) in change (value NA) with v.
  rewrite (Rabs_pos_eq Exact.NA) by (unfold Exact.NA; lra).
  unfold Exact.NA, Exact.rounding, Q2R. cbn [Qnum Qden].
  apply Rabs_le. split; lra.
Qed.

Lemma R_close : Exact.close Exact.rounding Exact.R (Exact.of_float R).
Proof.
  unfold Exact.close, Exact.of_float.
  let v := eval vm_compute in (value R) in change (value R) with v.
  rewrite (Rabs_pos_eq Exact.R) by (unfold Exact.R; lra).
  unfold Exact.R, Exact.rounding, Q2R. cbn [Qnum Qden].
  apply Rabs_le. split; lra.
Qed.

Lemma million_exact : Exact.of_float 1e6 = 1e6%R.
Proof.
  unfold Exact.of_float.
  let v := eval vm_compute in (value 1e6) in change (value 1e6) with v.
  unfold Q2R. cbn [Qnum Qden]. lra.
Qed.

(** For normal arguments whose binary exponents keep every product and the
    quotient in the normal range, the converter raises nothing and returns
    the real reading at the arguments' values up to the relative error
    2^-49. *)
Lemma vol_to_dens_accurate_normal v T P Ev ET EP :
  normal Ev (Prim2SF v) -> normal ET (Prim2SF T) -> normal EP (Prim2SF P) ->
  (-301 <= Ev <= 301)%Z -> (-603 <= ET <= 603)%Z -> (-603 <= EP <= 603)%Z ->
  (-604 <= EP - ET <= 604)%Z ->
  Exact.accurate v T P (vol_to_dens v T P).
Proof.
  intros Nv NT NP Bv BT BP BPT.
  destruct (normal_nonzero _ _ NT) as [T0 TR].
  rewrite vol_to_dens_cases, T0. eexists. split; [reflexivity|].
  destruct (mul_normal v NA Ev 79 Nv NA_normal ltac:(lia))
    as (E1 & N1 & B1 & C1).
  destruct (mul_normal (v * NA) P E1 EP N1 NP ltac:(lia))
    as (E2 & N2 & B2 & C2).
  destruct (mul_normal R T 4 ET R_normal NT ltac:(lia))
    as (E3 & N3 & B3 & C3).
  destruct (mul_normal (R * T) 1e6 E3 20 N3 million_normal ltac:(lia))
    as (E4 & N4 & B4 & C4).
  destruct (div_normal (v * NA * P) (R * T * 1e6) E2 E4 N2 N4 ltac:(lia))
    as (E5 & N5 & B5 & C5).
  rewrite million_exact in C4.
  assert (Hu : (0 <= Exact.rounding)%R) by (unfold Exact.rounding; lra).
  pose proof (close_trans _ _ _ _ _ Hu
                (close_mul _ _ _ _ _ _ (close_refl (Exact.of_float v))
                   NA_close) C1) as A1.
  pose proof (close_trans _ _ _ _ _ Hu
                (close_mul _ _ _ _ _ _ A1 (close_refl (Exact.of_float P)))
                C2) as A2.
  pose proof (close_trans _ _ _ _ _ Hu
                (close_mul _ _ _ _ _ _ R_close
                   (close_refl (Exact.of_float T))) C3) as A3.
  pose proof (close_trans _ _ _ _ _ Hu
                (close_mul _ _ _ _ _ _ A3 (close_refl 1e6%R)) C4) as A4.
  assert (Hy : (Exact.R * Exact.of_float T * 1e6 <> 0)%R).
  { apply Rmult_integral_contrapositive_currified; [|lra].
    apply Rmult_integral_contrapositive_currified; [unfold Exact.R; lra|].
    exact TR. }
  unfold Exact.vol_to_dens.
  eapply close_weaken;
    [|refine (close_trans _ _ _ _ _ Hu
                (close_div _ _ _ _ _ _ _ _ Hy A2 A4) C5)];
    unfold Exact.tolerance, Exact.rounding; lra.
Qed.

(** In particular on arguments in range. *)
Lemma vol_to_dens_accurate v T P :
  Exact.in_range v = true -> Exact.in_range T = true ->
  Exact.in_range P = true ->
  Exact.accurate v T P (vol_to_dens v T P).
Proof.
  intros Hv HT HP.
  apply in_range_normal in Hv as (Ev & Nv & Bv).
  apply in_range_normal in HT as (ET & NT & BT).
  apply in_range_normal in HP as (EP & NP & BP).
  apply (vol_to_dens_accurate_normal v T P Ev ET EP); assumption || lia.
Qed.

End Accuracy.

(** ** Comparing two conversions *)

Section Comparison.

Open Scope R_scope.

(** Two approximations of the same number are close to each other. *)
Lemma close_compare a b x r s :
  0 <= a -> 0 <= b < 1 ->
  Exact.close a x r -> Exact.close b x s ->
  Exact.close ((a + b) / (1 - b)) s r.
Proof.
  unfold Exact.close. intros Ha Hb Hr Hs.
  pose proof (Rabs_pos x) as Px.
  assert (Hx : (1 - b) * Rabs x <= Rabs s).
  { assert (H : Rabs x <= Rabs s + Rabs (x - s)).
    { replace x with (s + (x - s)) at 1 by ring. apply Rabs_triang. }
    rewrite (Rabs_minus_sym x s) in H. lra. }
  replace (r - s) with ((r - x) - (s - x)) by ring.
  unfold Rminus at 1.
  eapply Rle_trans; [apply Rabs_triang|]. rewrite Rabs_Ropp.
  apply Rle_trans with ((a + b) * Rabs x); [lra|].
  unfold Rdiv. rewrite Rmult_assoc.
  apply Rmult_le_compat_l; [lra|].
  apply Rmult_le_reg_l with (1 - b); [lra|].
  rewrite <- Rmult_assoc, Rinv_r by lra. lra.
Qed.

(** Two accurate conversions whose real readings are in the proportion
    [k] to [k'] return floats in that proportion up to 2^-47. *)
Lemma accurate_proportional v T P c w U Q c' k k' :
  Exact.accurate v T P c -> Exact.accurate w U Q c' ->
  Exact.vol_to_dens (Exact.of_float v) (Exact.of_float T) (Exact.of_float P)
    * k' =
  Exact.vol_to_dens (Exact.of_float w) (Exact.of_float U) (Exact.of_float Q)
    * k ->
  exists d d',
    c = Ok d /\ c' = Ok d' /\
    Exact.close (4 * Exact.tolerance)
      (Exact.of_float d' * k) (Exact.of_float d * k').
Proof.
  intros (d & -> & Hd) (d' & -> & Hd') Heq.
  exists d, d'. split; [reflexivity|]. split; [reflexivity|].
  pose proof (close_mul _ _ _ _ _ _ Hd (close_refl k')) as H.
  pose proof (close_mul _ _ _ _ _ _ Hd' (close_refl k)) as H'.
  rewrite Heq in H.
  eapply close_weaken; [|refine (close_compare _ _ _ _ _ _ _ H H')];
    unfold Exact.tolerance; lra.
Qed.

End Comparison.

(** ** Linearity and rescaling *)

(** C7, as stated, fails in binary64.  At the notebook's HO2 conversion
    tripling the mixing ratio gives the float next to three times the
    density, not three times the density; and far from the notebook's
    values it can fail altogether: the conversion of 3e284 overflows to
    infinity, while three times the conversion of 1e284 is finite. *)
Lemma tripling_not_linear :
  (exists d d3,
     vol_to_dens ho2 t_sfc p_sfc = Ok d /\
     vol_to_dens (3 * ho2) t_sfc p_sfc = Ok d3 /\
     (3 * d <? d3) = true /\ d3 = next_up (3 * d)) /\
  (exists d,
     vol_to_dens 1e284 1 1 = Ok d /\
     is_finite (3 * d) = true /\
     vol_to_dens (3 * 1e284) 1 1 = Ok infinity).
Proof.
  split.
  - do 2 eexists. repeat split; vm_compute; reflexivity.
  - eexists. repeat split; vm_compute; reflexivity.
Qed.

(** C9, as stated, fails in binary64: with temperature and pressure at
    10 km both multiplied by ten, the converted N2 density changes. *)
Lemma rescaling_not_exact :
  exists d d',
    vol_to_dens n2 t_10 p_10 = Ok d /\
    vol_to_dens n2 (10 * t_10) (10 * p_10) = Ok d' /\
    (d' <? d) = true /\ d = next_up d'.
Proof. do 2 eexists. repeat split; vm_compute; reflexivity. Qed.

(** Far from the notebook's values rescaling can fail altogether: a factor
    that takes temperature and pressure past the largest float gives NaN,
    one that takes them below the least subnormal raises. *)
Lemma rescaling_out_of_range :
  returns (fun d => is_finite d = true) (vol_to_dens n2 1e150 1e150) /\
  returns (fun d => is_nan d = true)
    (vol_to_dens n2 (1e200 * 1e150) (1e200 * 1e150)) /\
  vol_to_dens n2 (1e-200 * 1e-150) (1e-200 * 1e-150)
  = Raise ZeroDivisionError.
Proof.
  split; [|split]; [eexists; split; vm_compute; reflexivity..|].
  vm_compute. reflexivity.
Qed.

Lemma in_range_nonzero x :
  Exact.in_range x = true -> Exact.of_float x <> 0%R.
Proof.
  intros H. apply in_range_normal in H as (E & N & _).
  exact (proj2 (normal_nonzero _ _ N)).
Qed.

(** C7, amended.  On arguments of magnitude between 2^-300 and 2^300 the
    code raises nothing and returns the real reading [v * NA * P / (R * T *
    1e6)] up to the relative error 2^-49.  So, up to 2^-47, the densities
    it returns for two mixing ratios are in the proportion of the mixing
    ratios, those for two pressures in the proportion of the pressures,
    and those for two temperatures in the inverse proportion of the
    temperatures.  The real reading itself is linear in the mixing ratio
    and in the pressure and inversely proportional to the temperature.
    A mixing ratio of zero converts to exactly zero, for every non-zero
    temperature and finite pressure. *)
Theorem vol_to_dens_linear :
  (forall v T P : float,
     Exact.in_range v = true -> Exact.in_range T = true ->
     Exact.in_range P = true ->
     Exact.accurate v T P (vol_to_dens v T P)) /\
  (forall v w T P : float,
     Exact.in_range v = true -> Exact.in_range w = true ->
     Exact.in_range T = true -> Exact.in_range P = true ->
     exists d d',
       vol_to_dens v T P = Ok d /\ vol_to_dens w T P = Ok d' /\
       Exact.close (4 * Exact.tolerance)
         (Exact.of_float d' * Exact.of_float v)
         (Exact.of_float d * Exact.of_float w)) /\
  (forall v T P Q : float,
     Exact.in_range v = true -> Exact.in_range T = true ->
     Exact.in_range P = true -> Exact.in_range Q = true ->
     exists d d',
       vol_to_dens v T P = Ok d /\ vol_to_dens v T Q = Ok d' /\
       Exact.close (4 * Exact.tolerance)
         (Exact.of_float d' * Exact.of_float P)
         (Exact.of_float d * Exact.of_float Q)) /\
  (forall v T U P : float,
     Exact.in_range v = true -> Exact.in_range T = true ->
     Exact.in_range U = true -> Exact.in_range P = true ->
     exists d d',
       vol_to_dens v T P = Ok d /\ vol_to_dens v U P = Ok d' /\
       Exact.close (4 * Exact.tolerance)
         (Exact.of_float d' * Exact.of_float U)
         (Exact.of_float d * Exact.of_float T)) /\
  (forall a b v w T P : Rdefinitions.R,
     Exact.vol_to_dens (a * v + b * w) T P =
     a * Exact.vol_to_dens v T P + b * Exact.vol_to_dens w T P)%R /\
  (forall a b v T P Q : Rdefinitions.R,
     Exact.vol_to_dens v T (a * P + b * Q) =
     a * Exact.vol_to_dens v T P + b * Exact.vol_to_dens v T Q)%R /\
  (forall c v T P : Rdefinitions.R,
     c <> 0 -> T <> 0 ->
     Exact.vol_to_dens v (c * T) P = Exact.vol_to_dens v T P / c)%R /\
  (forall T P : float,
     (T =? 0) = false -> is_nan T = false -> is_finite P = true ->
     returns (fun z => (z =? 0) = true) (vol_to_dens 0 T P)).
Proof.
  split; [exact vol_to_dens_accurate|].
  split; [|split; [|split]].
  - intros v w T P Hv Hw HT HP.
    pose proof (in_range_nonzero T HT) as T0.
    apply (accurate_proportional v T P _ w T P _);
      [now apply vol_to_dens_accurate..|].
    unfold Exact.vol_to_dens, Exact.R. field. lra.
  - intros v T P Q Hv HT HP HQ.
    pose proof (in_range_nonzero T HT) as T0.
    apply (accurate_proportional v T P _ v T Q _);
      [now apply vol_to_dens_accurate..|].
    unfold Exact.vol_to_dens, Exact.R. field. lra.
  - intros v T U P Hv HT HU HP.
    pose proof (in_range_nonzero T HT) as T0.
    pose proof (in_range_nonzero U HU) as U0.
    apply (accurate_proportional v T P _ v U P _);
      [now apply vol_to_dens_accurate..|].
    unfold Exact.vol_to_dens, Exact.R. field. lra.
  - repeat split.
    + intros. unfold Exact.vol_to_dens, Rdiv. ring.
    + intros. unfold Exact.vol_to_dens, Rdiv. ring.
    + intros c v T P Hc HT. unfold Exact.vol_to_dens, Exact.R. field.
      repeat split; try assumption; lra.
    + exact vol_to_dens_zero.
Qed.

Lemma vol_to_dens_linear_witness :
  Exact.accurate ho2 t_sfc p_sfc (vol_to_dens ho2 t_sfc p_sfc) /\
  (exists d d',
     vol_to_dens ho2 t_sfc p_sfc = Ok d /\
     vol_to_dens ho2 t_10 p_sfc = Ok d' /\
     Exact.close (4 * Exact.tolerance)
       (Exact.of_float d' * Exact.of_float t_10)
       (Exact.of_float d * Exact.of_float t_sfc)) /\
  returns (fun z => (z =? 0) = true) (vol_to_dens 0 t_sfc p_sfc).
Proof.
  destruct vol_to_dens_linear as (Hacc & _ & _ & Hinv & _ & _ & _ & Hzero).
  split; [|split].
  - apply Hacc; vm_compute; reflexivity.
  - apply Hinv; vm_compute; reflexivity.
  - apply Hzero; reflexivity.
Defined.

(** C9, amended.  For a mixing ratio, a temperature, a pressure and a
    factor of magnitude between 2^-300 and 2^300, the code raises nothing
    on the rescaled arguments [c * T] and [c * P] (the binary64 products)
    and returns the density of the unscaled ones up to the relative error
    2^-47; the same holds for any two pairs of temperature and pressure in
    range with the same quotient P/T.  The real reading is unchanged by
    the rescaling. *)
Theorem vol_to_dens_scale_invariant :
  (forall c v T P : float,
     Exact.in_range c = true -> Exact.in_range v = true ->
     Exact.in_range T = true -> Exact.in_range P = true ->
     exists d d',
       vol_to_dens v T P = Ok d /\
       vol_to_dens v (c * T) (c * P) = Ok d' /\
       Exact.close (4 * Exact.tolerance)
         (Exact.of_float d) (Exact.of_float d')) /\
  (forall v T P T' P' : float,
     Exact.in_range v = true ->
     Exact.in_range T = true -> Exact.in_range P = true ->
     Exact.in_range T' = true -> Exact.in_range P' = true ->
     (Exact.of_float P * Exact.of_float T' =
      Exact.of_float P' * Exact.of_float T)%R ->
     exists d d',
       vol_to_dens v T P = Ok d /\
       vol_to_dens v T' P' = Ok d' /\
       Exact.close (4 * Exact.tolerance)
         (Exact.of_float d) (Exact.of_float d')) /\
  (forall c v T P : Rdefinitions.R,
     c <> 0 -> T <> 0 ->
     Exact.vol_to_dens v (c * T) (c * P) = Exact.vol_to_dens v T P)%R.
Proof.
  split; [|split].
  - intros c v T P Hc Hv HT HP.
    pose proof (in_range_nonzero c Hc) as c0.
    pose proof (in_range_nonzero T HT) as T0.
    destruct (vol_to_dens_accurate v T P Hv HT HP) as (d & Ed & Hd).
    apply in_range_normal in Hc as (Ec & Nc & Bc).
    apply in_range_normal in Hv as (Ev & Nv & Bv).
    apply in_range_normal in HT as (ET & NT & BT).
    apply in_range_normal in HP as (EP & NP & BP).
    destruct (mul_normal c T Ec ET Nc NT ltac:(lia)) as (ET' & NT' & BT' & CT).
    destruct (mul_normal c P Ec EP Nc NP ltac:(lia)) as (EP' & NP' & BP' & CP).
    destruct (vol_to_dens_accurate_normal v (c * T) (c * P) Ev ET' EP'
                Nv NT' NP' ltac:(lia) ltac:(lia) ltac:(lia) ltac:(lia))
      as (d' & Ed' & Hd').
    exists d, d'. split; [exact Ed|]. split; [exact Ed'|].
    assert (Hu : (0 <= Exact.rounding)%R) by (unfold Exact.rounding; lra).
    assert (Ht : (0 <= Exact.tolerance)%R) by (unfold Exact.tolerance; lra).
    unfold Exact.vol_to_dens in Hd'.
    pose proof (close_mul _ _ _ _ _ _
                  (close_refl (Exact.of_float v * Exact.NA)) CP) as Hnum.
    pose proof (close_mul _ _ _ _ _ _
                  (close_mul _ _ _ _ _ _ (close_refl Exact.R) CT)
                  (close_refl 1e6%R)) as Hden.
    assert (Hy : (Exact.R * (Exact.of_float c * Exact.of_float T) * 1e6
                  <> 0)%R).
    { apply Rmult_integral_contrapositive_currified; [|lra].
      apply Rmult_integral_contrapositive_currified; [unfold Exact.R; lra|].
      apply Rmult_integral_contrapositive_currified; assumption. }
    pose proof (fun Ha Hb => close_div _ _ _ _ _ _ Ha Hb Hy Hnum Hden)
      as Hdiv.
    specialize (Hdiv ltac:(unfold Exact.rounding; lra)
                  ltac:(unfold Exact.rounding; lra)).
    replace (Exact.of_float v * Exact.NA
             * (Exact.of_float c * Exact.of_float P)
             / (Exact.R * (Exact.of_float c * Exact.of_float T) * 1e6))%R
      with (Exact.vol_to_dens (Exact.of_float v) (Exact.of_float T)
              (Exact.of_float P)) in Hdiv
      by (unfold Exact.vol_to_dens, Exact.R; field; repeat split;
          assumption || lra).
    assert (Hq : Exact.close (4 * Exact.rounding)
                   (Exact.vol_to_dens (Exact.of_float v) (Exact.of_float T)
                      (Exact.of_float P))
                   (Exact.of_float v * Exact.NA * Exact.of_float (c * P)
                    / (Exact.R * Exact.of_float (c * T) * 1e6))%R).
    { eapply close_weaken; [|exact Hdiv]. unfold Exact.rounding. lra. }
    pose proof (close_trans _ _ _ _ _ Ht Hq Hd') as Hd2.
    eapply close_weaken; [|refine (close_compare _ _ _ _ _ _ _ Hd2 Hd)];
      unfold Exact.tolerance, Exact.rounding; lra.
  - intros v T P T' P' Hv HT HP HT' HP' Hquot.
    pose proof (in_range_nonzero T HT) as T0.
    pose proof (in_range_nonzero T' HT') as T0'.
    destruct (accurate_proportional v T' P' _ v T P _ 1%R 1%R
                (vol_to_dens_accurate v T' P' Hv HT' HP')
                (vol_to_dens_accurate v T P Hv HT HP))
      as (d' & d & E' & E & H).
    + rewrite !Rmult_1_r. unfold Exact.vol_to_dens, Exact.R.
      apply Rmult_eq_reg_r with (Exact.of_float T * Exact.of_float T')%R;
        [|apply Rmult_integral_contrapositive_currified; assumption].
      transitivity (Exact.of_float v * Exact.NA / (8.31 * 1e6)
                    * (Exact.of_float P' * Exact.of_float T))%R;
        [field; repeat split; assumption || lra|].
      rewrite <- Hquot. field. repeat split; assumption || lra.
    + exists d, d'. rewrite !Rmult_1_r in H. auto.
  - intros c v T P Hc HT. unfold Exact.vol_to_dens, Exact.R. field.
    repeat split; try assumption; lra.
Qed.

Lemma vol_to_dens_scale_invariant_witness :
  exists d d',
    vol_to_dens n2 t_10 p_10 = Ok d /\
    vol_to_dens n2 (10 * t_10) (10 * p_10) = Ok d' /\
    Exact.close (4 * Exact.tolerance) (Exact.of_float d) (Exact.of_float d').
Proof.
  apply (proj1 vol_to_dens_scale_invariant); vm_compute; reflexivity.
Defined.

(** ** Signs *)

Lemma binary_round_aux_opp s m e l :
  binary_round_aux prec emax (negb s) m e l =
  SFopp (binary_round_aux prec emax s m e l).
Proof.
  unfold binary_round_aux.
  destruct (shr_fexp prec emax m e l) as [mrs' e'].
  destruct (shr_fexp prec emax _ e' loc_Exact) as [mrs'' e''].
  destruct (shr_m mrs''); try reflexivity.
  destruct (e'' <=? emax - prec)%Z; reflexivity.
Qed.

Lemma SFmul_opp_l x y : SF64mul (SFopp x) y = SFopp (SF64mul x y).
Proof.
  destruct x as [sx|sx| |sx mx ex], y as [sy|sy| |sy my ey];
    cbn [SFopp SF64mul SFmul]; rewrite ?negb_xorb_l; try reflexivity.
  rewrite <- negb_xorb_l. apply binary_round_aux_opp.
Qed.

Lemma SFmul_opp_r x y : SF64mul x (SFopp y) = SFopp (SF64mul x y).
Proof.
  destruct x as [sx|sx| |sx mx ex], y as [sy|sy| |sy my ey];
    cbn [SFopp SF64mul SFmul]; rewrite ?negb_xorb_r; try reflexivity.
  rewrite <- negb_xorb_r. apply binary_round_aux_opp.
Qed.

Lemma SFdiv_opp_l x y : SF64div (SFopp x) y = SFopp (SF64div x y).
Proof.
  destruct x as [sx|sx| |sx mx ex], y as [sy|sy| |sy my ey];
    cbn [SFopp SF64div SFdiv]; rewrite ?negb_xorb_l; try reflexivity.
  destruct (SFdiv_core_binary prec emax (Zpos mx) ex (Zpos my) ey)
    as [[mz ez] lz].
  rewrite <- negb_xorb_l. apply binary_round_aux_opp.
Qed.

Lemma SFdiv_opp_r x y : SF64div x (SFopp y) = SFopp (SF64div x y).
Proof.
  destruct x as [sx|sx| |sx mx ex], y as [sy|sy| |sy my ey];
    cbn [SFopp SF64div SFdiv]; rewrite ?negb_xorb_r; try reflexivity.
  destruct (SFdiv_core_binary prec emax (Zpos mx) ex (Zpos my) ey)
    as [[mz ez] lz].
  rewrite <- negb_xorb_r. apply binary_round_aux_opp.
Qed.

Lemma mul_opp_l x y : (- x) * y = - (x * y).
Proof.
  apply Prim2SF_inj. now rewrite mul_spec, !opp_spec, mul_spec, SFmul_opp_l.
Qed.

Lemma mul_opp_r x y : x * (- y) = - (x * y).
Proof.
  apply Prim2SF_inj. now rewrite mul_spec, !opp_spec, mul_spec, SFmul_opp_r.
Qed.

Lemma div_opp_l x y : (- x) / y = - (x / y).
Proof.
  apply Prim2SF_inj. now rewrite div_spec, !opp_spec, div_spec, SFdiv_opp_l.
Qed.

Lemma div_opp_r x y : x / (- y) = - (x / y).
Proof.
  apply Prim2SF_inj. now rewrite div_spec, !opp_spec, div_spec, SFdiv_opp_r.
Qed.

Lemma eqb_zero_opp x : (- x =? 0) = (x =? 0).
Proof.
  rewrite !eqb_zero, opp_spec. destruct (Prim2SF x); reflexivity.
Qed.

(** Negating any one argument of the converter negates the result, bit for
    bit, and changes nothing about when it raises. *)
Theorem vol_to_dens_odd vol temp pressure :
  let negated := bind (vol_to_dens vol temp pressure) (fun d => Ok (- d)) in
  vol_to_dens (- vol) temp pressure = negated /\
  vol_to_dens vol (- temp) pressure = negated /\
  vol_to_dens vol temp (- pressure) = negated.
Proof.
  cbv zeta. rewrite !vol_to_dens_cases, eqb_zero_opp.
  destruct (temp =? 0); cbn [bind]; [repeat split; reflexivity|].
  repeat split; f_equal.
  - now rewrite !mul_opp_l, div_opp_l.
  - now rewrite mul_opp_r, mul_opp_l, div_opp_r.
  - now rewrite mul_opp_r, div_opp_l.
Qed.

(** ** NaN and non-negative arguments *)

Lemma is_nan_true x : is_nan x = true <-> Prim2SF x = S754_nan.
Proof.
  unfold is_nan. rewrite FloatAxioms.eqb_spec.
  destruct (Prim2SF x) as [[]|[]| |[] m e]; unfold SFeqb, SFcompare;
    rewrite ?Z.compare_refl, ?Pos.compare_cont_refl; cbn [negb CompOpp];
    split; intros H; try discriminate H; reflexivity.
Qed.

Lemma SFmul_nan_r x : SF64mul x S754_nan = S754_nan.
Proof. destruct x; reflexivity. Qed.

Lemma SFdiv_nan_r x : SF64div x S754_nan = S754_nan.
Proof. destruct x; reflexivity. Qed.

(** A NaN in any argument comes back as a NaN result, without an
    exception, unless the temperature is zero. *)
Theorem vol_to_dens_nan vol temp pressure :
  is_nan vol || is_nan temp || is_nan pressure = true ->
  (temp =? 0) = false ->
  returns (fun d => is_nan d = true) (vol_to_dens vol temp pressure).
Proof.
  intros H HT. rewrite vol_to_dens_cases, HT. eexists. split; [reflexivity|].
  apply is_nan_true. rewrite div_spec, !mul_spec.
  apply orb_prop in H as [H|H]; [apply orb_prop in H as [H|H]|];
    apply is_nan_true in H; rewrite H; cbn [SF64mul SFmul SF64div SFdiv];
    rewrite ?SFmul_nan_r, ?SFdiv_nan_r; reflexivity.
Qed.

(** Numbers that are not below zero: zeros of either sign, positive finite
    numbers, plus infinity; and NaN, which compares below nothing. *)
Lemma not_negative_ltb x :
  not_negative (Prim2SF x) -> (x <? 0) = false.
Proof.
  rewrite ltb_spec. change (Prim2SF 0) with (S754_zero false).
  destruct (Prim2SF x) as [[]|[]| |[] m e]; cbn; intros H;
    try discriminate H; reflexivity.
Qed.

Lemma binary_round_aux_sign s m e l :
  match binary_round_aux prec emax s m e l with
  | S754_zero s' | S754_infinity s' | S754_finite s' _ _ => s' = s
  | S754_nan => True
  end.
Proof.
  unfold binary_round_aux.
  destruct (shr_fexp prec emax m e l) as [mrs' e'].
  destruct (shr_fexp prec emax _ e' loc_Exact) as [mrs'' e''].
  destruct (shr_m mrs''); try reflexivity; try exact I.
  destruct (e'' <=? emax - prec)%Z; reflexivity.
Qed.

Lemma SFmul_not_negative x y :
  not_negative x -> not_negative y -> not_negative (SF64mul x y).
Proof.
  destruct x as [sx|[]| |[] mx ex], y as [sy|[]| |[] my ey];
    cbn; intros Hx Hy; try discriminate Hx; try discriminate Hy;
    try exact I; try reflexivity.
  pose proof (binary_round_aux_sign false (Zpos (mx * my)) (ex + ey) loc_Exact) as H.
  destruct (binary_round_aux prec emax false (Zpos (mx * my)) (ex + ey) loc_Exact);
    cbn; try exact I; exact H.
Qed.

Lemma SFdiv_not_negative x y :
  not_negative x -> above_zero y -> not_negative (SF64div x y).
Proof.
  destruct x as [sx|[]| |[] mx ex], y as [sy|[]| |[] my ey];
    cbn; intros Hx Hy; try discriminate Hx; try discriminate Hy;
    try contradiction; try exact I; try reflexivity.
  destruct (SFdiv_core_binary prec emax (Zpos mx) ex (Zpos my) ey)
    as [[mz ez] lz].
  pose proof (binary_round_aux_sign false mz ez lz) as H.
  destruct (binary_round_aux prec emax false mz ez lz);
    cbn; try exact I; exact H.
Qed.

Lemma leb_zero_not_negative x : (0 <=? x) = true -> not_negative (Prim2SF x).
Proof.
  rewrite leb_spec. change (Prim2SF 0) with (S754_zero false).
  destruct (Prim2SF x) as [[]|[]| |[] m e]; cbn; intros H;
    try discriminate H; try exact I; reflexivity.
Qed.

Lemma ltb_zero_above_zero x : (0 <? x) = true -> above_zero (Prim2SF x).
Proof.
  rewrite ltb_spec. change (Prim2SF 0) with (S754_zero false).
  destruct (Prim2SF x) as [[]|[]| |[] m e]; cbn; intros H;
    try discriminate H; reflexivity.
Qed.

Lemma above_zero_split x :
  above_zero x <-> nonzero_number x /\ not_negative x.
Proof. destruct x as [s|s| |s m e]; cbn; tauto. Qed.

Lemma denominator_above_zero temp :
  above_zero (Prim2SF temp) -> above_zero (Prim2SF (R * temp * 1e6)).
Proof.
  intros H. apply above_zero_split in H as [Hn Hs]. apply above_zero_split.
  split.
  - now apply denominator_number.
  - rewrite !mul_spec. apply SFmul_not_negative; [|vm_compute; reflexivity].
    apply SFmul_not_negative; [vm_compute; reflexivity|exact Hs].
Qed.

(** From a mixing ratio and a pressure that are not below zero and a
    temperature above zero the converter returns without an exception, and
    never a density below zero. *)
Theorem vol_to_dens_not_negative vol temp pressure :
  (0 <=? vol) = true -> (0 <? temp) = true -> (0 <=? pressure) = true ->
  returns (fun d => (d <? 0) = false) (vol_to_dens vol temp pressure).
Proof.
  intros Hv HT HP.
  apply leb_zero_not_negative in Hv, HP.
  apply ltb_zero_above_zero in HT.
  assert (H0 : (temp =? 0) = false).
  { rewrite eqb_zero. destruct (Prim2SF temp); cbn in HT; try contradiction;
      reflexivity. }
  rewrite vol_to_dens_cases, H0. eexists. split; [reflexivity|].
  apply not_negative_ltb. rewrite div_spec, !mul_spec.
  apply SFdiv_not_negative.
  - apply SFmul_not_negative; [|exact HP].
    apply SFmul_not_negative; [exact Hv|vm_compute; reflexivity].
  - rewrite <- !mul_spec. now apply denominator_above_zero.
Qed.

Lemma vol_to_dens_not_negative_witness :
  returns (fun d => (d <? 0) = false) (vol_to_dens ho2 t_sfc p_sfc).
Proof. apply vol_to_dens_not_negative; reflexivity. Defined.

Lemma vol_to_dens_nan_witness :
  returns (fun d => is_nan d = true) (vol_to_dens nan t_sfc p_sfc).
Proof. apply vol_to_dens_nan; reflexivity. Defined.

(** ** The NO2 lifetime *)

Lemma oh_c_at_least_one : at_least_one (Prim2SF oh_c).
Proof. vm_compute. discriminate. Qed.

(** [tau_no2_of] raises exactly when the rate constant compares equal to
    zero: its product with the OH density cannot underflow. *)
Theorem tau_no2_of_cases kn :
  tau_no2_of kn =
  if kn =? 0 then Raise ZeroDivisionError else Ok (1 / (kn * oh_c)).
Proof.
  unfold tau_no2_of, truediv.
  replace (kn * oh_c =? 0) with (kn =? 0); [reflexivity|].
  rewrite !eqb_zero.
  destruct (Prim2SF kn) as [s|s| |s m e] eqn:E.
  - rewrite mul_spec, E. destruct s; reflexivity.
  - rewrite mul_spec, E. destruct s; reflexivity.
  - rewrite mul_spec, E. reflexivity.
  - assert (H : nonzero_number (Prim2SF (kn * oh_c))).
    { apply mul_nonzero.
      - rewrite E. exact I.
      - vm_compute. exact I.
      - right. exact oh_c_at_least_one. }
    destruct (Prim2SF (kn * oh_c)); cbn in H; try contradiction; reflexivity.
Qed.

(** ** No negative results from inputs that are not negative *)

Lemma SFadd_not_negative x y :
  not_negative x -> not_negative y -> not_negative (SF64add x y).
Proof.
  destruct x as [[]|[]| |[] mx ex], y as [[]|[]| |[] my ey];
    cbn; intros Hx Hy; try discriminate Hx; try discriminate Hy;
    try exact I; try reflexivity.
  unfold binary_round.
  destruct (shl_align _ _ _) as [mz ez].
  pose proof (binary_round_aux_sign false (Zpos mz) ez loc_Exact) as H.
  destruct (binary_round_aux prec emax false (Zpos mz) ez loc_Exact);
    cbn; try exact I; exact H.
Qed.

Lemma mul_not_negative x y :
  not_negative (Prim2SF x) -> not_negative (Prim2SF y) ->
  not_negative (Prim2SF (x * y)).
Proof. intros. rewrite mul_spec. now apply SFmul_not_negative. Qed.

Lemma add_not_negative x y :
  not_negative (Prim2SF x) -> not_negative (Prim2SF y) ->
  not_negative (Prim2SF (x + y)).
Proof. intros. rewrite add_spec. now apply SFadd_not_negative. Qed.

Lemma div_not_negative x y :
  not_negative (Prim2SF x) -> not_negative (Prim2SF y) ->
  (y =? 0) = false -> not_negative (Prim2SF (x / y)).
Proof.
  intros Hx Hy H0. rewrite eqb_zero in H0. rewrite div_spec.
  destruct (Prim2SF y) as [sy|sy| |sy my ey] eqn:E; try discriminate H0.
  - apply SFdiv_not_negative; [exact Hx|exact Hy].
  - destruct (Prim2SF x); exact I.
  - apply SFdiv_not_negative; [exact Hx|exact Hy].
Qed.

Lemma truediv_not_negative x y :
  not_negative (Prim2SF x) -> not_negative (Prim2SF y) ->
  truediv x y = Raise ZeroDivisionError \/
  returns (fun d => (d <? 0) = false) (truediv x y).
Proof.
  intros Hx Hy. unfold truediv. destruct (y =? 0) eqn:H0; [now left|].
  right. eexists. split; [reflexivity|].
  apply not_negative_ltb. now apply div_not_negative.
Qed.

(** From densities, rate constants, lifetimes and ratios that are not
    below zero, the formulas of cells 4, 7, 8, 9 and 10 never give a result
    below zero: each either raises ZeroDivisionError or returns a value
    that is not negative. *)
Theorem formulas_not_negative o3_c oh_c ho2_c ch3o2_c k kn tau_no2 rat :
  (0 <=? o3_c) = true -> (0 <=? oh_c) = true ->
  (0 <=? ho2_c) = true -> (0 <=? ch3o2_c) = true ->
  (0 <=? k) = true -> (0 <=? kn) = true ->
  (0 <=? tau_no2) = true -> (0 <=? rat) = true ->
  let safe c :=
    c = Raise ZeroDivisionError \/ returns (fun d => (d <? 0) = false) c in
  safe (no_crit_of o3_c oh_c ho2_c ch3o2_c) /\
  safe (rat_of k o3_c) /\
  safe (tau_no2_of kn) /\
  (tau_nox_of tau_no2 rat <? 0) = false.
Proof.
  intros H1 H2 H3 H4 H5 H6 H7 H8 safe.
  apply leb_zero_not_negative in H1, H2, H3, H4, H5, H6, H7, H8.
  assert (C : forall c : float, (0 <=? c) = true -> not_negative (Prim2SF c))
    by exact leb_zero_not_negative.
  repeat split.
  - apply truediv_not_negative.
    + apply mul_not_negative; [exact H1|].
      repeat apply add_not_negative; apply mul_not_negative;
        try assumption; apply C; reflexivity.
    + apply add_not_negative; apply mul_not_negative;
        try assumption; apply C; reflexivity.
  - apply truediv_not_negative; [apply C; reflexivity|].
    now apply mul_not_negative.
  - apply truediv_not_negative; [apply C; reflexivity|].
    apply mul_not_negative; [assumption|apply C; reflexivity].
  - apply not_negative_ltb. apply mul_not_negative; [assumption|].
    apply add_not_negative; [apply C; reflexivity|assumption].
Qed.

Lemma formulas_not_negative_witness :
  returns (fun d => (d <? 0) = false) (no_crit_of 1e12 1e6 1e9 1e9) /\
  (tau_nox_of 15438 0.59 <? 0) = false.
Proof.
  pose proof (formulas_not_negative 1e12 1e6 1e9 1e9 1e-14 1e-10 15438 0.59
                eq_refl eq_refl eq_refl eq_refl eq_refl eq_refl eq_refl
                eq_refl) as H.
  cbv zeta in H. destruct H as ([H|H] & _ & _ & H').
  - vm_compute in H. discriminate H.
  - exact (conj H H').
Defined.

(** ** Rounding does not go below a representable lower bound *)

Section LowerBound.

Open Scope Z_scope.

Lemma val_pos m e : 0 < m -> - offset <= e -> 0 < val m e.
Proof.
  intros Hm He. unfold val. apply Z.mul_pos_pos; [exact Hm|].
  apply Z.pow_pos_nonneg; lia.
Qed.

Lemma val_le_mono m m' e : m <= m' -> val m e <= val m' e.
Proof.
  intros H. unfold val. apply Z.mul_le_mono_nonneg_r; [|exact H].
  apply Z.pow_nonneg. lia.
Qed.

(** The same value on a finer grid. *)
Lemma val_shift m e n :
  0 <= n -> - offset <= e -> val m (e + n) = val (m * 2 ^ n) e.
Proof.
  intros Hn He. unfold val.
  replace (e + n + offset) with (n + (e + offset)) by lia.
  rewrite Z.pow_add_r by lia. ring.
Qed.

Lemma canonical_exponent m e : canonical m e -> -1074 <= e.
Proof. unfold canonical, fexp, emin, prec, emax. lia. Qed.

(** Truncating a value that is at least the canonical float [(mt, et)] to
    its own canonical exponent keeps it at least [(mt, et)]. *)
Lemma shr_fexp_ge mt et m e l :
  0 < m -> - offset <= e -> canonical mt et ->
  val (Zpos mt) et <= val m e ->
  val (Zpos mt) et
    <= val (shr_m (fst (shr_fexp prec emax m e l)))
           (snd (shr_fexp prec emax m e l)) /\
  - offset <= snd (shr_fexp prec emax m e l).
Proof.
  intros Hm He Hc Hle. pose proof (canonical_exponent _ _ Hc) as Het.
  unfold shr_fexp, shr.
  assert (Hrec : shr_m (shr_record_of_loc m l) = m)
    by (destruct l as [|[]]; reflexivity).
  destruct m as [|p|p]; try lia. cbn [Zdigits2] in *.
  pose proof (digits2_pos_bounds p) as [Hlo Hhi].
  pose proof (digits2_pos_bounds mt) as [Htlo Hthi].
  unfold canonical in Hc.
  set (d := Zpos (digits2_pos p)) in *.
  set (dt := Zpos (digits2_pos mt)) in *.
  unfold fexp, emin, prec, emax in *.
  destruct (Z.max (d + e - 53) (3 - 1024 - 53) - e) as [|n|n] eqn:Hn;
    cbn [fst snd]; rewrite ?Hrec; try (split; [exact Hle|exact He]).
  rewrite shr_iter_m by (rewrite Hrec; lia). rewrite Hrec.
  split; [|unfold offset in *; lia].
  set (e' := e + Zpos n) in *.
  destruct (Z.le_gt_cases e' et) as [Hcase|Hcase].
  - (* the bound lies on the coarser grid *)
    replace et with (e' + (et - e')) in Hle |- * by lia.
    rewrite val_shift in Hle |- * by (unfold offset in *; lia).
    apply val_le_mono.
    unfold e' in Hle. rewrite val_shift in Hle by lia.
    unfold val in Hle.
    apply Z.mul_le_mono_pos_r in Hle;
      [|apply Z.pow_pos_nonneg; unfold offset in *; lia].
    apply Z.div_le_lower_bound; [apply Z.pow_pos_nonneg; lia|].
    rewrite Z.mul_comm. exact Hle.
  - (* the value lies in a higher binade than the bound *)
    assert (Hd : dt + 1 <= d) by lia.
    assert (Hn' : Zpos n = d - 53) by lia.
    apply Z.le_trans with (val (2 ^ 52) e').
    + apply Z.lt_le_incl.
      apply Z.lt_le_trans with (val (2 ^ dt) et).
      * unfold val. apply Z.mul_lt_mono_pos_r; [|exact Hthi].
        apply Z.pow_pos_nonneg; unfold offset in *; lia.
      * unfold val. rewrite <- !Z.pow_add_r by (unfold offset in *; lia).
        apply Z.pow_le_mono_r; unfold offset in *; lia.
    + apply val_le_mono.
      apply Z.div_le_lower_bound; [apply Z.pow_pos_nonneg; lia|].
      rewrite Z.mul_comm, <- Z.pow_add_r by lia.
      apply Z.le_trans with (2 := Hlo). apply Z.pow_le_mono_r; lia.
Qed.

(** Rounding a value that is at least the canonical float [(mt, et)] gives
    an infinity or a finite number that is at least [(mt, et)]. *)
Lemma binary_round_aux_ge mt et m e l :
  0 < m -> - offset <= e -> canonical mt et ->
  val (Zpos mt) et <= val m e ->
  binary_round_aux prec emax false m e l = S754_infinity false \/
  exists m' e',
    binary_round_aux prec emax false m e l = S754_finite false m' e' /\
    val (Zpos mt) et <= val (Zpos m') e'.
Proof.
  intros Hm He Hc Hle. pose proof (canonical_exponent _ _ Hc) as Het.
  assert (Ht : 0 < val (Zpos mt) et) by (apply val_pos; unfold offset; lia).
  unfold binary_round_aux.
  pose proof (shr_fexp_ge mt et m e l Hm He Hc Hle) as [H1 H1e].
  destruct (shr_fexp prec emax m e l) as [mrs' e'] eqn:E1.
  cbn [fst snd] in *.
  pose proof (round_nearest_even_ge (shr_m mrs') (loc_of_shr_record mrs'))
    as Hr.
  set (m2 := round_nearest_even (shr_m mrs') (loc_of_shr_record mrs')) in *.
  assert (H2 : val (Zpos mt) et <= val m2 e').
  { apply Z.le_trans with (1 := H1). now apply val_le_mono. }
  assert (Hm2 : 0 < m2).
  { destruct (Z.lt_ge_cases 0 m2) as [|Hneg]; [assumption|].
    assert (val m2 e' <= 0)
      by (unfold val; apply Z.mul_nonpos_nonneg; [lia|apply Z.pow_nonneg; lia]).
    lia. }
  pose proof (shr_fexp_ge mt et m2 e' loc_Exact Hm2 H1e Hc H2) as [H3 _].
  destruct (shr_fexp prec emax m2 e' loc_Exact) as [mrs'' e''] eqn:E2.
  cbn [fst snd] in *.
  destruct (shr_m mrs'') as [|q|q] eqn:Eq.
  - unfold val in H3, Ht. lia.
  - destruct (e'' <=? emax - prec); [right; eauto | left; reflexivity].
  - assert (val (Zneg q) e'' <= 0)
      by (unfold val; apply Z.mul_nonpos_nonneg; [lia|apply Z.pow_nonneg; lia]).
    lia.
Qed.

(** Between canonical floats the order of the values is the order that
    [SFleb] computes from exponents and mantissas. *)
Lemma canonical_leb mt et m e :
  canonical mt et -> canonical m e ->
  val (Zpos mt) et <= val (Zpos m) e ->
  SFleb (S754_finite false mt et) (S754_finite false m e) = true.
Proof.
  intros Hct Hc Hle.
  pose proof (canonical_exponent _ _ Hct) as Het.
  pose proof (canonical_exponent _ _ Hc) as He.
  unfold SFleb, SFcompare.
  destruct (Z.compare_spec et e) as [Heq|Hlt|Hgt]; [|reflexivity|].
  - subst e. unfold val in Hle.
    apply Z.mul_le_mono_pos_r in Hle;
      [|apply Z.pow_pos_nonneg; unfold offset; lia].
    rewrite Pos.compare_cont_spec. cbn [Pos.switch_Eq].
    destruct (Pos.compare_spec mt m) as [| |Hgt]; try reflexivity. lia.
  - exfalso.
    pose proof (digits2_pos_bounds mt) as [Htlo _].
    pose proof (digits2_pos_bounds m) as [_ Hhi].
    unfold canonical, fexp, emin, prec, emax in *.
    set (d := Zpos (digits2_pos m)) in *.
    set (dt := Zpos (digits2_pos mt)) in *.
    assert (Hd : d + e <= dt + et - 1) by lia.
    assert (H : val (Zpos m) e < val (Zpos mt) et); [|lia].
    apply Z.lt_le_trans with (val (2 ^ d) e).
    + unfold val. apply Z.mul_lt_mono_pos_r; [|exact Hhi].
      apply Z.pow_pos_nonneg; unfold offset; lia.
    + apply Z.le_trans with (val (2 ^ (dt - 1)) et).
      * unfold val. rewrite <- !Z.pow_add_r by (unfold offset; lia).
        apply Z.pow_le_mono_r; unfold offset; lia.
      * now apply val_le_mono.
Qed.

Lemma valid_canonical s m e :
  valid_binary (S754_finite s m e) = true -> canonical m e.
Proof.
  cbn [SpecFloat.valid_binary]. unfold bounded, canonical_mantissa.
  intros H. apply andb_prop in H as [H _]. now apply Z.eqb_eq in H.
Qed.

End LowerBound.

Section LowerBoundOps.

Open Scope Z_scope.

Lemma iter_xO m d : Zpos (Pos.iter xO m d) = Zpos m * 2 ^ Zpos d.
Proof.
  induction d as [|d IH] using Pos.peano_ind.
  - cbn. lia.
  - rewrite Pos.iter_succ, Pos2Z.inj_xO, IH, Pos2Z.inj_succ.
    rewrite Z.pow_succ_r by lia. ring.
Qed.

(** Aligning a mantissa to a lower exponent keeps its value. *)
Lemma shl_align_val m e e' :
  - offset <= e -> - offset <= e' ->
  val (Zpos (fst (shl_align m e e'))) (snd (shl_align m e e'))
  = val (Zpos m) e /\
  snd (shl_align m e e') = Z.min e e'.
Proof.
  intros He He'. unfold shl_align.
  destruct (e' - e) as [|d|d] eqn:Hd; cbn [fst snd]; try (split; [reflexivity|lia]).
  split; [|lia].
  rewrite iter_xO. replace e with (e' + Zpos d) by lia.
  now rewrite val_shift by lia.
Qed.

(** A product with a factor of value at least one is at least the other
    factor. *)
Lemma SFmul_ge mt et my ey :
  canonical mt et -> canonical my ey ->
  val 1 0 <= val (Zpos my) ey ->
  SF64mul (S754_finite false mt et) (S754_finite false my ey)
  = S754_infinity false \/
  exists m' e',
    SF64mul (S754_finite false mt et) (S754_finite false my ey)
    = S754_finite false m' e' /\
    val (Zpos mt) et <= val (Zpos m') e'.
Proof.
  intros Hct Hcy Hy.
  pose proof (canonical_exponent _ _ Hct) as Het.
  pose proof (canonical_exponent _ _ Hcy) as Hey.
  unfold SF64mul, SFmul. cbn [xorb].
  apply binary_round_aux_ge; [lia|unfold offset; lia|exact Hct|].
  unfold val in *. rewrite Pos2Z.inj_mul.
  assert (H2 : 0 < 2 ^ (0 + offset)) by (apply Z.pow_pos_nonneg; unfold offset; lia).
  apply Z.mul_le_mono_pos_r with (p := 2 ^ (0 + offset)); [exact H2|].
  replace (Zpos mt * Zpos my * 2 ^ (et + ey + offset) * 2 ^ (0 + offset))
    with (Zpos mt * 2 ^ (et + offset) * (Zpos my * 2 ^ (ey + offset))).
  - apply Z.mul_le_mono_nonneg_l; [|lia].
    apply Z.mul_nonneg_nonneg; [lia|apply Z.pow_nonneg; lia].
  - rewrite <- !Z.mul_assoc. f_equal.
    rewrite (Z.mul_comm (2 ^ (et + offset))), <- !Z.mul_assoc. f_equal.
    rewrite <- !Z.pow_add_r by (unfold offset; lia). f_equal. lia.
Qed.

(** Canonical floats at different exponents: the one with the lower
    exponent has the lower value. *)
Lemma canonical_exponent_lt m1 e1 m2 e2 :
  canonical m1 e1 -> canonical m2 e2 -> e1 < e2 ->
  val (Zpos m1) e1 < val (Zpos m2) e2.
Proof.
  intros H1 H2 Hlt.
  pose proof (canonical_exponent _ _ H1) as He1.
  pose proof (digits2_pos_bounds m2) as [Hlo _].
  pose proof (digits2_pos_bounds m1) as [_ Hhi].
  unfold canonical, fexp, emin, prec, emax in *.
  set (d1 := Zpos (digits2_pos m1)) in *.
  set (d2 := Zpos (digits2_pos m2)) in *.
  apply Z.lt_le_trans with (val (2 ^ d1) e1).
  - unfold val. apply Z.mul_lt_mono_pos_r; [|exact Hhi].
    apply Z.pow_pos_nonneg; unfold offset; lia.
  - apply Z.le_trans with (val (2 ^ (d2 - 1)) e2).
    + unfold val. rewrite <- !Z.pow_add_r by (unfold offset; lia).
      apply Z.pow_le_mono_r; unfold offset; lia.
    + now apply val_le_mono.
Qed.

Lemma leb_canonical m1 e1 m2 e2 :
  canonical m1 e1 -> canonical m2 e2 ->
  SFleb (S754_finite false m1 e1) (S754_finite false m2 e2) = true ->
  val (Zpos m1) e1 <= val (Zpos m2) e2.
Proof.
  intros H1 H2. unfold SFleb, SFcompare.
  destruct (Z.compare_spec e1 e2) as [Heq|Hlt|Hgt]; [| |discriminate].
  - subst e2. rewrite Pos.compare_cont_spec. cbn [Pos.switch_Eq].
    destruct (Pos.compare_spec m1 m2) as [| |Hgt]; try discriminate;
      intros _; apply val_le_mono; lia.
  - intros _. apply Z.lt_le_incl. now apply canonical_exponent_lt.
Qed.

(** A sum with a positive number is at least the other term. *)
Lemma SFadd_ge mx ex mr er :
  canonical mx ex -> canonical mr er ->
  SF64add (S754_finite false mx ex) (S754_finite false mr er)
  = S754_infinity false \/
  exists m' e',
    SF64add (S754_finite false mx ex) (S754_finite false mr er)
    = S754_finite false m' e' /\
    val (Zpos mx) ex <= val (Zpos m') e'.
Proof.
  intros Hcx Hcr.
  pose proof (canonical_exponent _ _ Hcx) as Hex.
  pose proof (canonical_exponent _ _ Hcr) as Her.
  unfold SF64add, SFadd, cond_Zopp.
  set (ez := Z.min ex er).
  destruct (shl_align_val mx ex ez) as [Hx Hxe]; [unfold offset; lia..|].
  destruct (shl_align_val mr er ez) as [Hr Hre]; [unfold offset; lia..|].
  replace (Z.min ex ez) with ez in Hxe by lia.
  replace (Z.min er ez) with ez in Hre by lia.
  rewrite Hxe in Hx. rewrite Hre in Hr.
  set (a := fst (shl_align mx ex ez)) in *.
  set (b := fst (shl_align mr er ez)) in *.
  change (Zpos a + Zpos b) with (Zpos (a + b)).
  unfold binary_normalize, binary_round.
  set (e1 := fexp prec emax (Zpos (digits2_pos (a + b)) + ez)).
  assert (He1 : -1074 <= e1) by (unfold e1, fexp, emin, prec, emax; lia).
  destruct (shl_align_val (a + b) ez e1) as [Hs Hse]; [unfold offset; lia..|].
  destruct (shl_align (a + b) ez e1) as [mz ez'] eqn:Es. cbn [fst snd] in *.
  apply binary_round_aux_ge; [lia|unfold offset; lia|exact Hcx|].
  rewrite Hs, <- Hx. apply val_le_mono. lia.
Qed.

End LowerBoundOps.

Open Scope float_scope.

Lemma ltb_zero_cases x :
  (0 <? x) = true ->
  Prim2SF x = S754_infinity false \/
  exists m e, Prim2SF x = S754_finite false m e /\ canonical m e.
Proof.
  intros H. pose proof (Prim2SF_valid x) as V.
  rewrite ltb_spec in H. change (Prim2SF 0) with (S754_zero false) in H.
  destruct (Prim2SF x) as [[]|[]| |[] m e]; try discriminate H.
  - now left.
  - right. exists m, e. split; [reflexivity|exact (valid_canonical _ _ _ V)].
Qed.

(** Adding a number that is not below zero to a positive one does not give
    less. *)
Lemma add_ge x r :
  (0 <? x) = true -> (0 <=? r) = true -> (x <=? x + r) = true.
Proof.
  intros Hx Hr.
  pose proof (Prim2SF_valid r) as Vr.
  pose proof (Prim2SF_valid (x + r)) as Vs.
  rewrite leb_spec in Hr |- *. rewrite add_spec in Vs |- *.
  change (Prim2SF 0) with (S754_zero false) in Hr.
  destruct (ltb_zero_cases x Hx) as [Ex|(mx & ex & Ex & Cx)]; rewrite Ex in *.
  - destruct (Prim2SF r) as [[]|[]| |[] mr er]; try discriminate Hr; reflexivity.
  - destruct (Prim2SF r) as [[]|[]| |[] mr er] eqn:Er; try discriminate Hr;
      try reflexivity.
    + cbn. rewrite Z.compare_refl, Pos.compare_cont_refl. reflexivity.
    + cbn. rewrite Z.compare_refl, Pos.compare_cont_refl. reflexivity.
    + pose proof (valid_canonical _ _ _ Vr) as Cr.
      destruct (SFadd_ge mx ex mr er Cx Cr) as [E|(m' & e' & E & Hle)];
        rewrite E in *; [reflexivity|].
      apply canonical_leb; [exact Cx|exact (valid_canonical _ _ _ Vs)|exact Hle].
Qed.

(** Multiplying a positive number by one that is at least one does not give
    less. *)
Lemma mul_ge x y :
  (0 <? x) = true -> (1 <=? y) = true -> (x <=? x * y) = true.
Proof.
  intros Hx Hy.
  pose proof (Prim2SF_valid y) as Vy.
  pose proof (Prim2SF_valid (x * y)) as Vp.
  rewrite leb_spec in Hy |- *. rewrite mul_spec in Vp |- *.
  change (Prim2SF 1) with (S754_finite false 4503599627370496 (-52)) in Hy.
  destruct (ltb_zero_cases x Hx) as [Ex|(mx & ex & Ex & Cx)]; rewrite Ex in *.
  - destruct (Prim2SF y) as [[]|[]| |[] my ey]; try discriminate Hy; reflexivity.
  - destruct (Prim2SF y) as [[]|[]| |[] my ey] eqn:Ey; try discriminate Hy;
      try reflexivity.
    pose proof (valid_canonical _ _ _ Vy) as Cy.
    apply leb_canonical in Hy; [|reflexivity|exact Cy].
    destruct (SFmul_ge mx ex my ey Cx Cy Hy) as [E|(m' & e' & E & Hle)];
      rewrite E in *; [reflexivity|].
    apply canonical_leb; [exact Cx|exact (valid_canonical _ _ _ Vp)|exact Hle].
Qed.

(** ** The NO_x lifetime is not below the NO2 lifetime *)

(** For every positive NO2 lifetime and every ratio that is not below
    zero, cell 10's product is at least the NO2 lifetime. *)
Theorem tau_nox_of_ge tau_no2 rat :
  (0 <? tau_no2) = true -> (0 <=? rat) = true ->
  (tau_no2 <=? tau_nox_of tau_no2 rat) = true.
Proof.
  intros Ht Hr. unfold tau_nox_of.
  apply mul_ge; [exact Ht|]. now apply add_ge.
Qed.

Lemma tau_nox_of_ge_witness : (15438 <=? tau_nox_of 15438 0.59) = true.
Proof. apply tau_nox_of_ge; reflexivity. Defined.

(** ** Standard output *)

Section Output.

Import String.
Open Scope string_scope.
Open Scope list_scope.

Lemma holds_fixed2 text c :
  Libm.holds (fun x => String.eqb (Format.fixed2 x) text) c = true ->
  exists x, c = Ok x /\ Format.fixed2 x = text.
Proof.
  destruct c as [x|e]; cbn; [|discriminate].
  intros H. apply String.eqb_eq in H. eauto.
Qed.

Lemma hours_inv tau h :
  hours tau = Ok h -> exists t, tau = Ok t /\ truediv t 3600 = Ok h.
Proof. destruct tau as [t|e]; cbn; [eauto|discriminate]. Qed.

(** With an accurate C library the run raises nothing and writes exactly
    the ten lines recorded in the notebook file. *)
Theorem notebook_stdout (m : libm) :
  Libm.accurate m -> Stdout.notebook m = Ok Stdout.recorded.
Proof.
  intros Hm.
  assert (H4 : Stdout.cell4 =
               Ok ["The critical NO concentration is: 4.19e+08 molec cm^-3"])
    by (vm_compute; reflexivity).
  assert (H5 : Stdout.cell5 =
               Ok ["k1_l * [OH]: 7.30e-08"; "k2_l * [HO_2]: 1.97e-06";
                   "f * JO1D$:  3.75e-06"; "k1 * ho2_c: 8.38e-03";
                   "k2 * ch202_c: 5.24e-03"])
    by (vm_compute; reflexivity).
  pose proof (accurate_sfc m
    (fun l => Libm.holds (fun x => String.eqb (Format.fixed2 x) "0.59")
                (rat_sfc l)
              && Libm.holds (fun x => String.eqb (Format.fixed2 x) "6.81")
                   (hours (tau_nox_sfc l)))
    ltac:(vm_compute; reflexivity) Hm) as Hs.
  pose proof (accurate_10 m
    (fun l => Libm.holds (fun x => String.eqb (Format.fixed2 x) "2.99")
                (rat_10 l)
              && Libm.holds (fun x => String.eqb (Format.fixed2 x) "18.37")
                   (hours (tau_nox_10 l)))
    ltac:(vm_compute; reflexivity) Hm) as Ht.
  cbv beta in Hs, Ht.
  apply andb_prop in Hs as [Hs1 Hs2]. apply andb_prop in Ht as [Ht1 Ht2].
  apply holds_fixed2 in Hs1 as (r1 & Er1 & Fr1).
  apply holds_fixed2 in Ht1 as (r2 & Er2 & Fr2).
  apply holds_fixed2 in Hs2 as (h1 & Eh1 & Fh1).
  apply holds_fixed2 in Ht2 as (h2 & Eh2 & Fh2).
  apply hours_inv in Eh1 as (t1 & Et1 & Eh1).
  apply hours_inv in Eh2 as (t2 & Et2 & Eh2).
  change (rat_sfc (Libm.at_sfc m)) with (rat_sfc m) in Er1.
  change (rat_10 (Libm.at_10 m)) with (rat_10 m) in Er2.
  change (tau_nox_sfc (Libm.at_sfc m)) with (tau_nox_sfc m) in Et1.
  change (tau_nox_10 (Libm.at_10 m)) with (tau_nox_10 m) in Et2.
  unfold Stdout.notebook, Stdout.cell7, Stdout.cell8, Stdout.cell10.
  rewrite H4, H5, Er1, Er2, Et1, Et2. cbn [bind].
  rewrite Eh1, Eh2. cbn [bind].
  rewrite Fr1, Fr2, Fh1, Fh2. reflexivity.
Qed.

Lemma notebook_stdout_witness :
  Libm.accurate Libm.rounded /\
  Stdout.notebook Libm.rounded = Ok Stdout.recorded.
Proof.
  split; [exact rounded_accurate|].
  exact (notebook_stdout Libm.rounded rounded_accurate).
Defined.

End Output.
